(** * pytube: the stream-resolution pipeline of [pytube/api.py]

  A shallow embedding of the [YouTube] session class of [pytube/api.py]
  and the properties of its stream-map decoder, bracket scanner,
  quality-profile table, itag classification, cipher cache and
  single-match query.

  Python text is modelled as [string] (8-bit characters); a Python
  [dict] as a [gmap]; the session object as a record threaded through
  a state-and-exception monad. *)

From Stdlib Require Import ZArith Ascii String List Permutation Lia.
From stdpp Require Import base decidable option list gmap strings fin_maps.

Local Open Scope string_scope.
Local Open Scope list_scope.

(** ** Exceptions *)

(** The messages of the [raise PytubeError(...)] statements of
    [api.py]. *)
Inductive pytube_msg : Type :=
| UnableToOpenUrl
| UnableToExtractJson
| UnableToDetermineJsonOffset
| NoItagFound
| MultipleItagsFound.

(** Modelled from the spec: [pytube/exceptions.py] is not among the
    sources.  The conditions of the spec's error taxonomy are the
    classes that [api.py] imports from it; they are taken to be
    exception classes of the library's own, none of them a subclass of
    the builtin [TypeError] or [KeyError].  The other constructors are
    the builtin exceptions that the statements of [api.py] can raise. *)
Inductive exn : Type :=
| PytubeError (msg : pytube_msg)
| AgeRestricted
| CipherError
| DoesNotExist
| MultipleObjectsReturned
| ValueError
| IndexError
| TypeError
| KeyError
| AttributeError.

Inductive result (A : Type) : Type :=
| Returns (a : A)
| Raises (e : exn).
Arguments Returns {A} a.
Arguments Raises {A} e.

(** ** Text primitives *)

Module Text.

(** [s.split(sep)] for a one-character separator: always at least one
    piece, empty pieces kept. *)
Fixpoint split (sep : ascii) (s : string) : list string :=
  match s with
  | EmptyString => [EmptyString]
  | String c s' =>
      if Ascii.eqb c sep then EmptyString :: split sep s'
      else match split sep s' with
           | piece :: rest => String c piece :: rest
           | [] => [String c EmptyString]
           end
  end.

(** [s.startswith(p)] *)
Fixpoint startswith (p s : string) : bool :=
  match p, s with
  | EmptyString, _ => true
  | String a p', String b s' => Ascii.eqb a b && startswith p' s'
  | String _ _, EmptyString => false
  end.

(** [s.find(p)]: the least index at which [p] occurs, [None] for
    Python's [-1]. *)
Fixpoint find (p s : string) : option nat :=
  if startswith p s then Some 0
  else match s with
       | EmptyString => None
       | String _ s' => S <$> find p s'
       end.

(** [p in s] *)
Definition contains (p s : string) : bool :=
  match find p s with Some _ => true | None => false end.

(** [s[n:]] and [s[:n]] for [n >= 0]. *)
Fixpoint drop (n : nat) (s : string) : string :=
  match n, s with
  | O, _ => s
  | S n', String _ s' => drop n' s'
  | S _, EmptyString => EmptyString
  end.

Fixpoint take (n : nat) (s : string) : string :=
  match n, s with
  | O, _ => EmptyString
  | S n', String c s' => String c (take n' s')
  | S _, EmptyString => EmptyString
  end.

Definition is_digit (c : ascii) : bool :=
  let n := nat_of_ascii c in (48 <=? n)%nat && (n <=? 57)%nat.

(** The longest prefix of characters satisfying [p], and the rest. *)
Fixpoint span (p : ascii -> bool) (s : string) : string * string :=
  match s with
  | EmptyString => (EmptyString, EmptyString)
  | String c s' =>
      if p c then let '(run, rest) := span p s' in (String c run, rest)
      else (EmptyString, s)
  end.

(** [int(s)] for a string of decimal digits. *)
Definition digit_value (c : ascii) : Z := Z.of_nat (nat_of_ascii c) - 48.

Fixpoint int_acc (acc : Z) (s : string) : Z :=
  match s with
  | EmptyString => acc
  | String c s' => int_acc (10 * acc + digit_value c) s'
  end.

Definition int (s : string) : Z := int_acc 0 s.

End Text.


(** ** Data model *)

(** [YT_QUALITY_PROFILES]: the rows of the table, in source order. *)
Definition YT_QUALITY_PROFILES_rows : list (Z * list string) :=
  [ (5,   ["flv"; "240p"; "Sorenson H.263"; "N/A"; "0.25"; "MP3"; "64"]);
    (17,  ["3gp"; "144p"; "MPEG-4 Visual"; "Simple"; "0.05"; "AAC"; "24"]);
    (36,  ["3gp"; "240p"; "MPEG-4 Visual"; "Simple"; "0.17"; "AAC"; "38"]);
    (43,  ["webm"; "360p"; "VP8"; "N/A"; "0.5"; "Vorbis"; "128"]);
    (100, ["webm"; "360p"; "VP8"; "3D"; "N/A"; "Vorbis"; "128"]);
    (18,  ["mp4"; "360p"; "H.264"; "Baseline"; "0.5"; "AAC"; "96"]);
    (22,  ["mp4"; "720p"; "H.264"; "High"; "2-2.9"; "AAC"; "192"]);
    (82,  ["mp4"; "360p"; "H.264"; "3D"; "0.5"; "AAC"; "96"]);
    (83,  ["mp4"; "240p"; "H.264"; "3D"; "0.5"; "AAC"; "96"]);
    (84,  ["mp4"; "720p"; "H.264"; "3D"; "2-2.9"; "AAC"; "152"]);
    (85,  ["mp4"; "1080p"; "H.264"; "3D"; "2-2.9"; "AAC"; "152"]) ]%Z.

Definition YT_QUALITY_PROFILES : gmap Z (list string) :=
  list_to_map YT_QUALITY_PROFILES_rows.

Definition YT_QUALITY_PROFILE_KEYS : list string :=
  ["extension"; "resolution"; "video_codec"; "profile"; "video_bitrate";
   "audio_codec"; "audio_bitrate"].

(** A keyword dictionary such as [dict(zip(keys, row))], in key order. *)
Definition kwargs : Type := list (string * string).

Fixpoint kwarg (key : string) (kw : kwargs) : option string :=
  match kw with
  | [] => None
  | (k, v) :: kw' => if String.eqb k key then Some v else kwarg key kw'
  end.

(** Modelled from the spec: [pytube/models.py] is not among the sources.
    [Video] is the spec's plain data container holding the resolved
    attributes: the url, the filename and the seven quality-profile
    fields, each of the seven absent ([None]) when the keyword is not
    passed. *)
Record Video : Type := mkVideo {
  url : string;
  filename : string;
  extension : option string;
  resolution : option string;
  video_codec : option string;
  profile : option string;
  video_bitrate : option string;
  audio_codec : option string;
  audio_bitrate : option string
}.

(** [Video(url, filename, **kw)] *)
Definition Video_new (u fn : string) (kw : kwargs) : Video :=
  {| url := u; filename := fn;
     extension := kwarg "extension" kw;
     resolution := kwarg "resolution" kw;
     video_codec := kwarg "video_codec" kw;
     profile := kwarg "profile" kw;
     video_bitrate := kwarg "video_bitrate" kw;
     audio_codec := kwarg "audio_codec" kw;
     audio_bitrate := kwarg "audio_bitrate" kw |}.

(** The part of the parsed page configuration that the pipeline reads:
    [args.title], [assets.js] and [args.url_encoded_fmt_stream_map],
    each absent or a string. *)
Record Config : Type := mkConfig {
  cfg_title : option string;
  cfg_js : option string;
  cfg_url_encoded_fmt_stream_map : option string
}.

(** The collaborators outside [api.py]: [urllib]'s [unquote] and
    [urlopen] ([None] for a falsy response), [json.loads] ([None] when
    it rejects the text), the interpreter call
    [JSInterpreter(code).extract_function(func)([signature])] ([None]
    when any step of it raises), [utils.safe_filename], and the order
    [list.sort] puts videos in (defined by [models.Video]). *)
Class Collaborators : Type := {
  unquote : string -> string;
  urlopen : string -> option string;
  json_loads : string -> option Config;
  js_call : string -> string -> string -> option string;
  safe_filename : option string -> string;
  video_sort : list Video -> list Video
}.

(** An attribute that [__init__] does not assign: the object has it
    from its first assignment on, and reading it before raises
    [AttributeError]. *)
Inductive attribute (A : Type) : Type :=
| Unset
| Assigned (v : A).
Arguments Unset {A}.
Arguments Assigned {A} v.

(** The attributes of a [YouTube] object.  [_js_code = None] is the
    initial [False]; [title] is not among the attributes that
    [__init__] assigns, [get_video_data] and [from_url] assign it. *)
Record YouTube : Type := mkYouTube {
  _filename : option string;
  _video_url : option string;
  _js_code : option string;
  _videos : list Video;
  title : attribute (option string)
}.

(** Calls that leave the process, in the order they are made. *)
Inductive call : Type :=
| Urlopen (u : string)
| JsonLoads (text : string).

Record World : Type := mkWorld {
  self : YouTube;
  calls : list call
}.

(** Python truthiness of an optional string: [None], [False] and the
    empty string are falsy. *)
Definition truthy (o : option string) : bool :=
  match o with
  | Some s => negb (String.eqb s "")
  | None => false
  end.

(** ** State and exceptions *)

Definition M (A : Type) : Type := World -> result A * World.

Definition ret {A : Type} (a : A) : M A := fun w => (Returns a, w).

Definition raise {A : Type} (e : exn) : M A := fun w => (Raises e, w).

Definition bind {A B : Type} (m : M A) (k : A -> M B) : M B :=
  fun w =>
    match m w with
    | (Returns a, w') => k a w'
    | (Raises e, w') => (Raises e, w')
    end.

Definition lift {A : Type} (r : result A) : M A := fun w => (r, w).

Definition get_self : M YouTube := fun w => (Returns (self w), w).

Definition modify_self (f : YouTube -> YouTube) : M unit :=
  fun w => (Returns tt, {| self := f (self w); calls := calls w |}).

Definition log_call (c : call) : M unit :=
  fun w => (Returns tt, {| self := self w; calls := calls w ++ [c] |}).

Declare Scope py_scope.
Delimit Scope py_scope with py.
Notation "'do' x <- m ;; k" := (bind m (fun x => k))
  (at level 10, x name, m at level 99, k at level 200) : py_scope.
Notation "'run' m ;; k" := (bind m (fun _ => k))
  (at level 10, m at level 99, k at level 200) : py_scope.

Definition set__filename (v : option string) (y : YouTube) : YouTube :=
  {| _filename := v; _video_url := _video_url y; _js_code := _js_code y;
     _videos := _videos y; title := title y |}.

Definition set__video_url (v : option string) (y : YouTube) : YouTube :=
  {| _filename := _filename y; _video_url := v; _js_code := _js_code y;
     _videos := _videos y; title := title y |}.

Definition set__js_code (v : option string) (y : YouTube) : YouTube :=
  {| _filename := _filename y; _video_url := _video_url y; _js_code := v;
     _videos := _videos y; title := title y |}.

Definition set__videos (v : list Video) (y : YouTube) : YouTube :=
  {| _filename := _filename y; _video_url := _video_url y;
     _js_code := _js_code y; _videos := v; title := title y |}.

Definition set_title (v : option string) (y : YouTube) : YouTube :=
  {| _filename := _filename y; _video_url := _video_url y;
     _js_code := _js_code y; _videos := _videos y; title := Assigned v |}.

(** [for x in l: body(x)] *)
Fixpoint for_each {A : Type} (body : A -> M unit) (l : list A) : M unit :=
  match l with
  | [] => ret tt
  | x :: l' => bind (body x) (fun _ => for_each body l')
  end.

(** [enumerate(l)] *)
Definition enumerate {A : Type} (l : list A) : list (nat * A) :=
  imap pair l.

(** ** The methods of [YouTube] *)

Local Open Scope py_scope.

(** [YouTube()] without a url. *)
Definition YouTube_init : YouTube :=
  {| _filename := None; _video_url := None; _js_code := None;
     _videos := []; title := Unset |}.

Section Methods.

Context {collab : Collaborators}.

(** *** [_parse_stream_map] *)

(** The six lists [_parse_stream_map] starts from. *)
Definition STREAM_MAP_FIELDS : list string :=
  ["itag"; "url"; "quality"; "fallback_host"; "s"; "type"].

Definition empty_stream_map : gmap string (list string) :=
  list_to_map ((fun k => (k, [])) <$> STREAM_MAP_FIELDS).

(** [dct.get(key, []).append(v)]: the list stored under [key] is
    extended in place; for a key that is not in [dct] it is the fresh
    default list that is extended, and dropped. *)
Definition get_append (key v : string) (dct : gmap string (list string))
  : gmap string (list string) :=
  match dct !! key with
  | Some l => <[key := l ++ [v]]> dct
  | None => dct
  end.

(** [key, value = kv.split("=")] followed by the append. *)
Definition parse_kv (dct : gmap string (list string)) (kv : string)
  : result (gmap string (list string)) :=
  match Text.split "=" kv with
  | [key; value] => Returns (get_append key (unquote value) dct)
  | _ => Raises ValueError
  end.

Fixpoint parse_video (dct : gmap string (list string)) (video : list string)
  : result (gmap string (list string)) :=
  match video with
  | [] => Returns dct
  | kv :: video' =>
      match parse_kv dct kv with
      | Returns dct' => parse_video dct' video'
      | Raises e => Raises e
      end
  end.

Fixpoint parse_videos (dct : gmap string (list string))
  (videos : list (list string)) : result (gmap string (list string)) :=
  match videos with
  | [] => Returns dct
  | video :: videos' =>
      match parse_video dct video with
      | Returns dct' => parse_videos dct' videos'
      | Raises e => Raises e
      end
  end.

Definition _parse_stream_map (blob : string)
  : result (gmap string (list string)) :=
  let videos := Text.split "," blob in
  let videos := Text.split "&" <$> videos in
  parse_videos empty_stream_map videos.

(** *** [_get_json_offset] and [_get_json_data] *)

(** The [for idx, ch in enumerate(html)] loop of [_get_json_offset];
    the top of the [brackets] stack is the head of the list.  The
    result is the [idx] at which the loop breaks. *)
Fixpoint scan_brackets (brackets : list ascii) (idx : nat) (html : string)
  : result nat :=
  match html with
  | EmptyString => Raises (PytubeError UnableToDetermineJsonOffset)
  | String ch html' =>
      if Ascii.eqb ch "{" then scan_brackets ("}"%char :: brackets) (S idx) html'
      else if Ascii.eqb ch "}" then
        match brackets with
        | [] => Raises IndexError
        | _ :: brackets' =>
            if (length brackets' =? 0)%nat then Returns idx
            else scan_brackets brackets' (S idx) html'
        end
      else scan_brackets brackets (S idx) html'
  end.

Definition _get_json_offset (html : string) : result nat :=
  let index := 1 in
  match scan_brackets [] 0 html with
  | Returns idx => Returns (index + idx)
  | Raises e => Raises e
  end.

Definition _get_json_data (html : string) : M Config :=
  let start :=
    match Text.find "ytplayer.config = " html with
    | Some i => i + 18
    | None => 17
    end in
  let html := Text.drop start html in
  do offset <- lift (_get_json_offset html) ;;
  if (offset =? 0)%nat then raise (PytubeError UnableToExtractJson)
  else
    let text := Text.take offset html in
    run log_call (JsonLoads text) ;;
    match json_loads text with
    | Some json_object => ret json_object
    | None => raise ValueError
    end.

(** *** [get_video_data] *)

(** The result is the parsed configuration together with the decoded
    stream map that the method stores under [args.stream_map].  A
    session without a url has nothing [urlopen] can open; a
    configuration without the encoded stream map makes
    [_parse_stream_map] call [split] on [None]. *)
Definition get_video_data : M (Config * gmap string (list string)) :=
  run modify_self (set_title None) ;;
  do y <- get_self ;;
  match _video_url y with
  | None => raise AttributeError
  | Some u =>
      run log_call (Urlopen u) ;;
      match urlopen u with
      | None => raise (PytubeError UnableToOpenUrl)
      | Some html =>
          if Text.contains "og:restrictions:age" html then raise AgeRestricted
          else
            do json_object <- _get_json_data html ;;
            match cfg_url_encoded_fmt_stream_map json_object with
            | None => raise AttributeError
            | Some encoded_stream_map =>
                do stream_map <- lift (_parse_stream_map encoded_stream_map) ;;
                ret (json_object, stream_map)
            end
      end
  end.

(** *** [_get_quality_profile_from_url] *)

(** One match of [itag=(\d+)] at the start of [s]: the digits. *)
Definition match_itag (s : string) : option string :=
  if Text.startswith "itag=" s then
    let '(digits, _) := Text.span Text.is_digit (Text.drop 5 s) in
    match digits with
    | EmptyString => None
    | _ => Some digits
    end
  else None.

(** [re.compile('itag=(\d+)').findall(s)]: the matches from left to
    right, the search for the next one starting where the last one
    ended.  [fuel] bounds the number of positions tried. *)
Fixpoint findall_itag_from (fuel : nat) (s : string) : list string :=
  match fuel with
  | O => []
  | S fuel' =>
      match s with
      | EmptyString => []
      | String _ s' =>
          match match_itag s with
          | Some digits =>
              digits
              :: findall_itag_from fuel'
                   (Text.drop (5 + String.length digits) s)
          | None => findall_itag_from fuel' s'
          end
      end
  end.

Definition findall_itag (s : string) : list string :=
  findall_itag_from (String.length s) s.

Definition _get_quality_profile_from_url (video_url : string)
  : result (Z * option kwargs) :=
  match findall_itag video_url with
  | [digits] =>
      let itag := Text.int digits in
      match YT_QUALITY_PROFILES !! itag with
      | None | Some [] => Returns (itag, None)
      | Some quality_profile =>
          Returns (itag, Some (combine YT_QUALITY_PROFILE_KEYS quality_profile))
      end
  | [] => Raises (PytubeError NoItagFound)
  | _ :: _ :: _ => Raises (PytubeError MultipleItagsFound)
  end.

(** *** [_get_cipher] *)

Definition is_name_char (c : ascii) : bool :=
  let n := nat_of_ascii c in
  ((97 <=? n)%nat && (n <=? 122)%nat) || ((65 <=? n)%nat && (n <=? 90)%nat)
  || Text.is_digit c || Ascii.eqb c "$".

(** One match of [\.sig\|\|([a-zA-Z0-9$]+)\(] at the start of [s]. *)
Definition match_cipher_name (s : string) : option string :=
  if Text.startswith ".sig||" s then
    let '(name, rest) := Text.span is_name_char (Text.drop 6 s) in
    match name with
    | EmptyString => None
    | _ => if Text.startswith "(" rest then Some name else None
    end
  else None.

(** [reg_exp.search(code)], first group of the leftmost match. *)
Fixpoint search_cipher_name (code : string) : option string :=
  match match_cipher_name code with
  | Some name => Some name
  | None =>
      match code with
      | EmptyString => None
      | String _ code' => search_cipher_name code'
      end
  end.

Definition _get_cipher (signature js_url : string) : M string :=
  do y <- get_self ;;
  do js_code <-
    (if negb (truthy (_js_code y)) then
       run log_call (Urlopen js_url) ;;
       match urlopen js_url with
       | None => raise (PytubeError UnableToOpenUrl)
       | Some text =>
           run modify_self (set__js_code (Some text)) ;;
           ret text
       end
     else ret (default "" (_js_code y))) ;;
  (* the [try] block: every exception becomes [CipherError] *)
  match search_cipher_name js_code with
  | None => raise CipherError
  | Some func =>
      match js_call js_code func signature with
      | Some s => ret s
      | None => raise CipherError
      end
  end.

(** *** The [filename] property and [_add_video] *)

Definition get_filename : M string :=
  do y <- get_self ;;
  if negb (truthy (_filename y)) then
    match title y with
    | Unset => raise AttributeError
    | Assigned t =>
        let fn := safe_filename t in
        run modify_self (set__filename (Some fn)) ;;
        ret fn
    end
  else ret (default "" (_filename y)).

Definition _add_video (u fn : string) (kw : kwargs) : M unit :=
  let video := Video_new u fn kw in
  run modify_self (fun y => set__videos (_videos y ++ [video]) y) ;;
  modify_self (fun y => set__videos (video_sort (_videos y)) y).

(** *** [from_url] *)

Definition is_empty_kwargs (kw : kwargs) : bool :=
  match kw with [] => true | _ => false end.

(** The body of the loop over [enumerate(video_urls)]; [ret tt] before
    the end of the body is [continue]. *)
Definition from_url_body (stream_map : gmap string (list string))
  (js_url : string) (item : nat * string) : M unit :=
  let '(idx, u) := item in
  match _get_quality_profile_from_url u with
  | Raises TypeError | Raises KeyError => ret tt
  | Raises e => raise e
  | Returns (itag, None) => ret tt
  | Returns (itag, Some quality_profile) =>
      if is_empty_kwargs quality_profile then ret tt
      else
        do u <-
          (if negb (Text.contains "signature=" u) then
             match stream_map !! "s" with
             | None => raise KeyError
             | Some sigs =>
                 match sigs !! idx with
                 | None => raise IndexError
                 | Some s =>
                     do signature <- _get_cipher s js_url ;;
                     ret (u ++ "&signature=" ++ signature)%string
                 end
             end
           else ret u) ;;
        do fn <- get_filename ;;
        _add_video u fn quality_profile
  end.

Definition from_url (u : string) : M unit :=
  run modify_self (set__video_url (Some u)) ;;
  run modify_self (set__filename None) ;;
  do video_data <- get_video_data ;;
  let '(json_object, stream_map) := video_data in
  run modify_self (set_title (cfg_title json_object)) ;;
  match cfg_js json_object with
  | None => raise TypeError
  | Some js =>
      let js_url := ("http:" ++ js)%string in
      match stream_map !! "url" with
      | None => raise TypeError
      | Some video_urls =>
          for_each (from_url_body stream_map js_url) (enumerate video_urls)
      end
  end.

(** [YouTube(url)], in a process that has made the calls [made]. *)
Definition YouTube_new (u : option string) (made : list call)
  : result unit * World :=
  let w := {| self := YouTube_init; calls := made |} in
  if truthy u then from_url (default "" u) w else (Returns tt, w).

(** *** [get] and [filter] *)

(** One arm of the [if ... and v.attr != crit: continue] chain. *)
Definition rejects (crit attr : option string) : bool :=
  truthy crit && negb (bool_decide (attr = crit)).

Definition keeps (ext res prof : option string) (v : Video) : bool :=
  if rejects ext (extension v) then false
  else if rejects res (resolution v) then false
  else if rejects prof (profile v) then false
  else true.

Definition filter_videos (y : YouTube) (ext res prof : option string)
  : list Video :=
  List.filter (keeps ext res prof) (_videos y).

(** What [get] hands back with [return]: a video, or the exception
    object it builds when nothing matched. *)
Inductive got : Type :=
| GotVideo (v : Video)
| GotException (e : exn).

Definition get (y : YouTube) (ext res prof : option string) : result got :=
  let result := filter_videos y ext res prof in
  let matches := length result in
  if (matches <=? 0)%nat then Returns (GotException DoesNotExist)
  else if (matches =? 1)%nat then
    match result with
    | v :: _ => Returns (GotVideo v)
    | [] => Raises IndexError
    end
  else Raises MultipleObjectsReturned.

End Methods.

Definition get_videos (y : YouTube) : list Video := _videos y.

(** ** Notions used to state the properties *)

Section Notions.

Context {collab : Collaborators}.

(** The comma-separated segments of a blob. *)
Definition segments (blob : string) : list string := Text.split "," blob.

(** A sub-segment read as a key and its decoded value, when it has
    exactly one equals sign. *)
Definition kv_pair (kv : string) : option (string * string) :=
  match Text.split "=" kv with
  | [key; value] => Some (key, unquote value)
  | _ => None
  end.

(** The decoded value of a sub-segment whose key is [k]. *)
Definition kv_value (k : string) (kv : string) : option string :=
  match kv_pair kv with
  | Some (key, value) => if String.eqb key k then Some value else None
  | None => None
  end.

(** The decoded values that the sub-segments of a segment give to the
    field [k], in sub-segment order. *)
Definition segment_values (k : string) (seg : string) : list string :=
  omap (kv_value k) (Text.split "&" seg).

(** The value a segment carries for the field [k], if any. *)
Definition segment_value (k : string) (seg : string) : option string :=
  head (segment_values k seg).

Definition carries (k : string) (seg : string) : bool :=
  match segment_value k seg with Some _ => true | None => false end.

Definition kv_key (kv : string) : string :=
  default "" (head (Text.split "=" kv)).

Definition segment_keys (seg : string) : list string :=
  kv_key <$> Text.split "&" seg.

(** A well-formed blob: every sub-segment of every segment is
    [key=value] with a single equals sign, and no segment names a key
    twice. *)
Definition well_formed_segment (seg : string) : bool :=
  forallb (fun kv => (length (Text.split "=" kv) =? 2)%nat) (Text.split "&" seg)
  && bool_decide (NoDup (segment_keys seg)).

Definition well_formed (blob : string) : bool :=
  forallb well_formed_segment (segments blob).

(** The [itag=<digits>] tokens of a text: the digits of the token that
    starts at each offset, for the offsets at which one starts. *)
Fixpoint itag_tokens (s : string) : list string :=
  match s with
  | EmptyString => []
  | String _ s' =>
      match match_itag s with
      | Some digits => digits :: itag_tokens s'
      | None => itag_tokens s'
      end
  end.

(** The cipher transform applied to a script text that is already at
    hand: the [try] block of [_get_cipher]. *)
Definition cipher_with (code signature : string) : result string :=
  match search_cipher_name code with
  | None => Raises CipherError
  | Some func =>
      match js_call code func signature with
      | Some s => Returns s
      | None => Raises CipherError
      end
  end.

End Notions.

(** Text without braces that are out of balance: every opening brace
    has its closing brace. *)
Inductive balanced : string -> Prop :=
| balanced_empty : balanced ""
| balanced_char (c : ascii) (s : string) :
    c <> "{"%char -> c <> "}"%char -> balanced s -> balanced (String c s)
| balanced_nest (s t : string) :
    balanced s -> balanced t -> balanced (String "{" (s ++ String "}" t)).

(** Occurrences of a character. *)
Fixpoint count_char (c : ascii) (s : string) : nat :=
  match s with
  | EmptyString => 0
  | String d s' => (if Ascii.eqb d c then 1 else 0) + count_char c s'
  end.


(** The criteria of [get] and [filter], read as a conjunction: each
    criterion that is given (truthy) equals the video's attribute. *)
Definition meets (crit attr : option string) : Prop :=
  truthy crit = true -> attr = crit.

Definition matches_criteria (ext res prof : option string) (v : Video) : Prop :=
  meets ext (extension v) /\ meets res (resolution v) /\ meets prof (profile v).

(** Two worlds that differ only in the videos collected so far: the
    first has the videos [old] in addition to those of the second. *)
Definition extends_videos (old : list Video) (wa wb : World) : Prop :=
  _filename (self wa) = _filename (self wb) /\
  _video_url (self wa) = _video_url (self wb) /\
  _js_code (self wa) = _js_code (self wb) /\
  title (self wa) = title (self wb) /\
  calls wa = calls wb /\
  Permutation (_videos (self wa)) (old ++ _videos (self wb)).


(** Two computations that, run from worlds differing only in the videos
    [old], end alike and in worlds that still differ only in [old]. *)
Definition simulates {A : Type} (old : list Video) (ma mb : M A) : Prop :=
  forall wa wb : World,
    extends_videos old wa wb ->
    let '(ra, wa') := ma wa in
    let '(rb, wb') := mb wb in
    ra = rb /\ extends_videos old wa' wb'.

(** The world in which [from_url u] calls [get_video_data]. *)
Definition prepared (u : string) (w : World) : World :=
  {| self := set__filename None (set__video_url (Some u) (self w));
     calls := calls w |}.

(** ** A small concrete world

    Collaborators over three synthetic pages and three script files,
    used to run the pipeline on concrete inputs. *)

Module Demo.

Definition hex_value (c : ascii) : option nat :=
  let n := nat_of_ascii c in
  if Text.is_digit c then Some (n - 48)
  else if (65 <=? n)%nat && (n <=? 70)%nat then Some (n - 55)
  else if (97 <=? n)%nat && (n <=? 102)%nat then Some (n - 87)
  else None.

(** Percent-decoding of one-byte escapes; anything else is kept. *)
Fixpoint unquote (s : string) : string :=
  match s with
  | EmptyString => EmptyString
  | String c s1 =>
      match s1 with
      | String a (String b s2) =>
          match Ascii.eqb c "%", hex_value a, hex_value b with
          | true, Some x, Some y => String (ascii_of_nat (16 * x + y)) (unquote s2)
          | _, _, _ => String c (unquote s1)
          end
      | _ => String c (unquote s1)
      end
  end.

Fixpoint reverse_onto (acc s : string) : string :=
  match s with
  | EmptyString => acc
  | String c s' => reverse_onto (String c acc) s'
  end.

(** The only transform the toy interpreter knows: [rv] reverses. *)
Definition js_call (code func signature : string) : option string :=
  if String.eqb func "rv" then Some (reverse_onto "" signature) else None.

Definition record_hd : string :=
  "itag=22&url=http%3A%2F%2Fv%2Fhd%3Fitag%3D22&s=abc&quality=hd720".
Definition record_sd : string :=
  "itag=18&url=http%3A%2F%2Fv%2Fsd%3Fitag%3D18%26signature%3DXY&s=xy&quality=medium".
Definition record_unknown : string :=
  "itag=999&url=http%3A%2F%2Fv%2Fxx%3Fitag%3D999%26signature%3DQ&s=q&quality=small".
Definition record_no_itag : string :=
  "url=http%3A%2F%2Fv%2Fnone%3Fsignature%3DZ&s=z&quality=small".

Definition cfg_ok : Config :=
  {| cfg_title := Some "Clip"; cfg_js := Some "//yt/player.js";
     cfg_url_encoded_fmt_stream_map :=
       Some (record_hd ++ "," ++ record_sd ++ "," ++ record_unknown)%string |}.

Definition cfg_bad_cipher : Config :=
  {| cfg_title := Some "Clip"; cfg_js := Some "//yt/changed.js";
     cfg_url_encoded_fmt_stream_map :=
       Some (record_hd ++ "," ++ record_sd)%string |}.

Definition cfg_no_itag : Config :=
  {| cfg_title := Some "Clip"; cfg_js := Some "//yt/player.js";
     cfg_url_encoded_fmt_stream_map :=
       Some (record_no_itag ++ "," ++ record_sd)%string |}.

Definition configs : list Config := [cfg_ok; cfg_bad_cipher; cfg_no_itag].

(** The text of a configuration object as the pages embed it. *)
Definition render (c : Config) : string :=
  ("{'args': {'title': '" ++ default "" (cfg_title c)
   ++ "', 'url_encoded_fmt_stream_map': '"
   ++ default "" (cfg_url_encoded_fmt_stream_map c)
   ++ "'}, 'assets': {'js': '" ++ default "" (cfg_js c) ++ "'}}")%string.

Definition page (c : Config) : string :=
  ("<html><script>var ytplayer.config = " ++ render c
   ++ ";</script><body>{player}</body></html>")%string.

Definition json_loads (text : string) : option Config :=
  List.find (fun c => String.eqb (render c) text) configs.

Definition watch_ok : string := "http://yt/watch?v=ok".
Definition watch_bad_cipher : string := "http://yt/watch?v=changed".
Definition watch_no_itag : string := "http://yt/watch?v=noitag".
Definition watch_age : string := "http://yt/watch?v=adult".

Definition urlopen (u : string) : option string :=
  if String.eqb u watch_ok then Some (page cfg_ok)
  else if String.eqb u watch_bad_cipher then Some (page cfg_bad_cipher)
  else if String.eqb u watch_no_itag then Some (page cfg_no_itag)
  else if String.eqb u watch_age then
    Some "<html><meta property='og:restrictions:age' content='18+'>}</html>"
  else if String.eqb u "http://yt/player.js" then Some "var f=function(g){g.sig||rv(g.s)}"
  else if String.eqb u "http://yt/changed.js" then Some "var f=function(g){g.sig2(g.s)}"
  else if String.eqb u "http://yt/empty.js" then Some ""
  else None.

Definition safe_filename (t : option string) : string := default "video" t.

Definition sort_key (v : Video) : string :=
  (default "" (extension v) ++ " " ++ default "" (resolution v))%string.

Fixpoint insert_video (v : Video) (l : list Video) : list Video :=
  match l with
  | [] => [v]
  | x :: l' =>
      if String.leb (sort_key v) (sort_key x) then v :: l
      else x :: insert_video v l'
  end.

Definition video_sort (l : list Video) : list Video :=
  fold_right insert_video [] l.

Definition collaborators : Collaborators :=
  Build_Collaborators unquote urlopen json_loads js_call safe_filename
    video_sort.

Definition world0 : World := {| self := YouTube_init; calls := [] |}.

(** The session after a first resolution of [watch_ok]. *)
Definition world1 : World :=
  (@from_url collaborators watch_ok world0).2.

End Demo.

(** ** Further methods and notions *)

(** [video.filename = fn] *)
Definition with_filename (fn : string) (v : Video) : Video :=
  {| url := url v; filename := fn;
     extension := extension v; resolution := resolution v;
     video_codec := video_codec v; profile := profile v;
     video_bitrate := video_bitrate v; audio_codec := audio_codec v;
     audio_bitrate := audio_bitrate v |}.

Definition is_empty_list {A : Type} (l : list A) : bool :=
  match l with [] => true | _ => false end.

(** [set_filename]: the loop over [get_videos()] assigns the filename
    of every video object of the collection. *)
Definition set_filename (fn : string) : M bool :=
  (run modify_self (set__filename (Some fn)) ;;
   do y <- get_self ;;
   run (if negb (is_empty_list (get_videos y)) then
          modify_self (fun y => set__videos (with_filename fn <$> _videos y) y)
        else ret tt) ;;
   ret true)%py.

Section FurtherNotions.

Context {collab : Collaborators}.

(** What the [filename] property evaluates to in a session: the
    filename that is set, when it is not empty; else the name made
    from the title, when the session has one. *)
Definition current_filename (y : YouTube) : result string :=
  if truthy (_filename y) then Returns (default "" (_filename y))
  else match title y with
       | Assigned t => Returns (safe_filename t)
       | Unset => Raises AttributeError
       end.

(** The world after [_add_video(u, self.filename, **kw)], where the
    [filename] property has evaluated to [fn]. *)
Definition added (u fn : string) (kw : kwargs) (w : World) : World :=
  {| self :=
       set__videos (video_sort (_videos (self w) ++ [Video_new u fn kw]))
         (set__filename (Some fn) (self w));
     calls := calls w |}.

End FurtherNotions.

(** A candidate url that the loop of [from_url] turns into a video:
    it has a single itag, and the table has a row for it. *)
Definition classified (u : string) : bool :=
  match _get_quality_profile_from_url u with
  | Returns (_, Some kw) => negb (is_empty_kwargs kw)
  | _ => false
  end.

Definition is_raise {A : Type} (r : result A) : bool :=
  match r with Raises _ => true | Returns _ => false end.

Definition is_brace (c : ascii) : bool :=
  Ascii.eqb c "{" || Ascii.eqb c "}".

(** Text without any brace. *)
Fixpoint brace_free (s : string) : bool :=
  match s with
  | EmptyString => true
  | String c s' => negb (is_brace c) && brace_free s'
  end.

(** Two texts with the same braces at the same offsets. *)
Inductive same_braces : string -> string -> Prop :=
| same_braces_empty : same_braces "" ""
| same_braces_brace (c : ascii) (s t : string) :
    is_brace c = true -> same_braces s t ->
    same_braces (String c s) (String c t)
| same_braces_other (c d : ascii) (s t : string) :
    is_brace c = false -> is_brace d = false -> same_braces s t ->
    same_braces (String c s) (String d t).

Definition has_all_attributes (v : Video) : Prop :=
  is_Some (extension v) /\ is_Some (resolution v) /\
  is_Some (video_codec v) /\ is_Some (profile v) /\
  is_Some (video_bitrate v) /\ is_Some (audio_codec v) /\
  is_Some (audio_bitrate v).

(** An [itag=<digit>] token starts somewhere in the text. *)
Definition has_itag_token (s : string) : Prop :=
  exists (before : string) (d : ascii) (after : string),
    s = (before +:+ "itag=" +:+ String d after)%string /\
    Text.is_digit d = true.

(** Two fields of two decoded stream maps put end to end. *)
Definition concat_fields (a b : option (list string)) : option (list string) :=
  match a, b with
  | Some x, Some y => Some (x ++ y)
  | _, _ => None
  end.

(** ** A second concrete world

    The world of [Demo] with one more page, whose candidates all carry
    a signature. *)

Module Demo2.

Definition cfg_signed : Config :=
  {| cfg_title := Some "Signed"; cfg_js := Some "//yt/player.js";
     cfg_url_encoded_fmt_stream_map :=
       Some (Demo.record_sd ++ "," ++ Demo.record_unknown)%string |}.

Definition watch_signed : string := "http://yt/watch?v=signed".

Definition urlopen (u : string) : option string :=
  if String.eqb u watch_signed then Some (Demo.page cfg_signed)
  else Demo.urlopen u.

Definition json_loads (text : string) : option Config :=
  if String.eqb (Demo.render cfg_signed) text then Some cfg_signed
  else Demo.json_loads text.

Definition collaborators : Collaborators :=
  Build_Collaborators Demo.unquote urlopen json_loads Demo.js_call
    Demo.safe_filename Demo.video_sort.

End Demo2.

(** * Properties *)

(** ** The bracket scanner *)

Section BracketScanner.

Lemma string_app_nil (b : string) : ("" +:+ b)%string = b.
Proof. reflexivity. Qed.

Lemma string_app_cons (x : ascii) (a b : string) :
  (String x a +:+ b)%string = String x (a +:+ b).
Proof. reflexivity. Qed.

Ltac string_simpl :=
  repeat (rewrite ?string_app_nil, ?string_app_cons in *; cbn [String.length] in * ).

Lemma string_app_assoc (a b c : string) :
  ((a +:+ b) +:+ c = a +:+ (b +:+ c))%string.
Proof.
  induction a as [|x a IH]; string_simpl; [reflexivity | now rewrite IH].
Qed.

Lemma string_app_length (a b : string) :
  String.length (a +:+ b) = String.length a + String.length b.
Proof.
  induction a as [|x a IH]; string_simpl; [reflexivity | now rewrite IH].
Qed.

Lemma take_app_length (a b : string) :
  Text.take (String.length a) (a +:+ b) = a.
Proof.
  induction a as [|x a IH]; string_simpl; cbn [Text.take];
    [now destruct b | now rewrite IH].
Qed.

Lemma scan_brackets_open (brackets : list ascii) (idx : nat) (rest : string) :
  scan_brackets brackets idx (String "{" rest)
  = scan_brackets ("}"%char :: brackets) (S idx) rest.
Proof. reflexivity. Qed.

Lemma scan_brackets_close (b : ascii) (brackets : list ascii) (idx : nat)
  (rest : string) :
  scan_brackets (b :: brackets) idx (String "}" rest)
  = if (length brackets =? 0)%nat then Returns idx
    else scan_brackets brackets (S idx) rest.
Proof. reflexivity. Qed.

Lemma scan_brackets_other (c : ascii) (brackets : list ascii) (idx : nat)
  (rest : string) :
  c <> "{"%char -> c <> "}"%char ->
  scan_brackets brackets idx (String c rest)
  = scan_brackets brackets (S idx) rest.
Proof.
  intros Hopen Hclose. cbn [scan_brackets].
  apply Ascii.eqb_neq in Hopen, Hclose. now rewrite Hopen, Hclose.
Qed.

(** Scanning a balanced text with a non-empty stack only advances the
    index: the stack is the same afterwards and the loop has not ended. *)
Lemma scan_brackets_balanced (s : string) :
  balanced s ->
  forall (brackets : list ascii) (idx : nat) (rest : string),
    brackets <> [] ->
    scan_brackets brackets idx (s +:+ rest)
    = scan_brackets brackets (idx + String.length s) rest.
Proof.
  induction 1 as [|c s Hopen Hclose Hs IH|s t Hs IHs Ht IHt];
    intros brackets idx rest Hne.
  - string_simpl. now rewrite Nat.add_0_r.
  - string_simpl. rewrite scan_brackets_other by assumption.
    rewrite IH by assumption. f_equal. lia.
  - string_simpl. rewrite scan_brackets_open.
    rewrite string_app_assoc. rewrite IHs by discriminate.
    string_simpl. rewrite scan_brackets_close.
    destruct brackets as [|b brackets]; [contradiction|].
    cbn [length Nat.eqb].
    rewrite IHt by discriminate.
    f_equal. rewrite string_app_length. string_simpl. lia.
Qed.


(** A closing brace met with an empty stack ends the scan with the
    [IndexError] of [brackets.pop()]. *)
Lemma json_offset_pop_from_empty (rest : string) :
  _get_json_offset (String "}" rest) = Raises IndexError.
Proof. reflexivity. Qed.




End BracketScanner.

(** ** The quality-profile table and itag classification *)

Section Classification.

Context {collab : Collaborators}.

Lemma quality_profile_rows_nonempty (itag : Z) (row : list string) :
  YT_QUALITY_PROFILES !! itag = Some row -> row <> [].
Proof.
  assert (Hall : map_Forall (fun _ r => r <> []) YT_QUALITY_PROFILES).
  { apply (bool_decide_unpack _). vm_compute. exact I. }
  intros Hrow. exact (Hall itag row Hrow).
Qed.

Lemma quality_profile_unknown (itag : Z) :
  itag ∉ [5; 17; 36; 43; 100; 18; 22; 82; 83; 84; 85]%Z ->
  YT_QUALITY_PROFILES !! itag = None.
Proof.
  intros Hnot. unfold YT_QUALITY_PROFILES.
  apply not_elem_of_list_to_map_1. exact Hnot.
Qed.

(** What [_get_quality_profile_from_url] returns on a single match. *)
Lemma quality_profile_single (video_url digits : string) :
  findall_itag video_url = [digits] ->
  _get_quality_profile_from_url video_url
  = Returns (Text.int digits,
             combine YT_QUALITY_PROFILE_KEYS
               <$> YT_QUALITY_PROFILES !! Text.int digits).
Proof.
  intros Hone. unfold _get_quality_profile_from_url. rewrite Hone.
  destruct (YT_QUALITY_PROFILES !! Text.int digits) as [row|] eqn:Hrow;
    [|reflexivity].
  apply quality_profile_rows_nonempty in Hrow.
  destruct row; [contradiction | reflexivity].
Qed.

(** C4: the row of itag 22 is exactly (mp4, 720p, H.264, High, 2-2.9,
    AAC, 192); an itag outside the eleven of the table has no row, the
    lookup being a total function; and a candidate whose single itag
    has no row is classified without an exception and skipped by the
    loop of [from_url], which leaves the session as it was. *)
Theorem quality_profile_lookup :
  YT_QUALITY_PROFILES !! 22%Z
  = Some ["mp4"; "720p"; "H.264"; "High"; "2-2.9"; "AAC"; "192"] /\
  (forall itag : Z,
      itag ∉ [5; 17; 36; 43; 100; 18; 22; 82; 83; 84; 85]%Z ->
      YT_QUALITY_PROFILES !! itag = None) /\
  (forall (video_url digits : string),
      findall_itag video_url = [digits] ->
      Text.int digits ∉ [5; 17; 36; 43; 100; 18; 22; 82; 83; 84; 85]%Z ->
      _get_quality_profile_from_url video_url
      = Returns (Text.int digits, None) /\
      forall (stream_map : gmap string (list string)) (js_url : string)
             (idx : nat) (w : World),
        from_url_body stream_map js_url (idx, video_url) w = (Returns tt, w)).
Proof.
  split; [|split].
  - vm_compute. reflexivity.
  - exact quality_profile_unknown.
  - intros video_url digits Hone Hnot.
    assert (Hqp : _get_quality_profile_from_url video_url
                  = Returns (Text.int digits, None)).
    { rewrite (quality_profile_single _ _ Hone).
      now rewrite (quality_profile_unknown _ Hnot). }
    split; [exact Hqp|].
    intros stream_map js_url idx w. unfold from_url_body.
    rewrite Hqp. reflexivity.
Qed.

(** *** The matches of [itag=(\d+)] *)

Lemma startswith_drop (p s : string) :
  Text.startswith p s = true ->
  s = (p +:+ Text.drop (String.length p) s)%string.
Proof.
  revert s. induction p as [|a p IH]; intros s Hstarts; [reflexivity|].
  destruct s as [|b s]; [discriminate|].
  cbn [Text.startswith] in Hstarts.
  apply andb_true_iff in Hstarts as [Hab Hrest].
  apply Ascii.eqb_eq in Hab. subst b.
  rewrite string_app_cons. cbn [String.length Text.drop].
  now rewrite <- (IH s Hrest).
Qed.

Lemma match_itag_first (c : ascii) (rest : string) :
  c <> "i"%char -> match_itag (String c rest) = None.
Proof.
  intros Hc. unfold match_itag. cbn [Text.startswith].
  destruct (Ascii.eqb_spec "i" c) as [Heq | Hne]; [now subst c | reflexivity].
Qed.

Lemma itag_tokens_skip (c : ascii) (rest : string) :
  c <> "i"%char -> itag_tokens (String c rest) = itag_tokens rest.
Proof.
  intros Hc. cbn [itag_tokens]. now rewrite (match_itag_first _ _ Hc).
Qed.

Lemma is_digit_not_i (c : ascii) : Text.is_digit c = true -> c <> "i"%char.
Proof. intros Hdigit ->. discriminate Hdigit. Qed.

(** No token starts inside a run of digits. *)
Lemma span_digits_tokens (s : string) :
  forall digits rest : string,
    Text.span Text.is_digit s = (digits, rest) ->
    itag_tokens s = itag_tokens rest /\
    Text.drop (String.length digits) s = rest /\
    String.length rest <= String.length s.
Proof.
  induction s as [|c s IH]; intros digits rest Hspan; cbn [Text.span] in Hspan.
  - injection Hspan as <- <-. repeat split; reflexivity.
  - destruct (Text.is_digit c) eqn:Hc.
    + destruct (Text.span Text.is_digit s) as [ds rest'] eqn:Hrun.
      injection Hspan as <- <-.
      destruct (IH ds rest' eq_refl) as (Htokens & Hdrop & Hlen).
      rewrite (itag_tokens_skip _ _ (is_digit_not_i _ Hc)).
      cbn [String.length Text.drop]. repeat split; [assumption | assumption | lia].
    + injection Hspan as <- <-. repeat split; reflexivity.
Qed.

(** After a match, the next one is searched past its digits; no token
    is missed by that. *)
Lemma match_itag_skip (c : ascii) (s digits : string) :
  match_itag (String c s) = Some digits ->
  itag_tokens s
  = itag_tokens (Text.drop (5 + String.length digits) (String c s)) /\
  String.length (Text.drop (5 + String.length digits) (String c s))
  <= String.length s.
Proof.
  unfold match_itag.
  destruct (Text.startswith "itag=" (String c s)) eqn:Hstarts; [|discriminate].
  apply startswith_drop in Hstarts. cbn [String.length] in Hstarts.
  remember (Text.drop 5 (String c s)) as t eqn:Ht.
  destruct (Text.span Text.is_digit t) as [ds rest] eqn:Hspan.
  destruct (span_digits_tokens _ _ _ Hspan) as (Htokens & Hdrop & Hlen).
  intros Hsome.
  assert (Hrun : ds = digits) by (destruct ds; congruence). subst ds.
  rewrite Hstarts. rewrite !string_app_cons, string_app_nil in *.
  injection Hstarts as _ ->.
  cbn [Nat.add Text.drop String.length].
  rewrite !itag_tokens_skip by discriminate.
  rewrite Hdrop. split; [exact Htokens | lia].
Qed.

(** The left-to-right search finds the token at every offset at which
    one starts. *)
Lemma findall_itag_from_tokens (fuel : nat) :
  forall s : string,
    String.length s <= fuel -> findall_itag_from fuel s = itag_tokens s.
Proof.
  induction fuel as [|fuel IH]; intros s Hlen.
  - destruct s; [reflexivity | cbn in Hlen; lia].
  - destruct s as [|c s]; [reflexivity|].
    cbn [findall_itag_from itag_tokens]. cbn [String.length] in Hlen.
    destruct (match_itag (String c s)) as [digits|] eqn:Hmatch.
    + destruct (match_itag_skip _ _ _ Hmatch) as [Htokens Hshort].
      rewrite IH by lia. now rewrite Htokens.
    + apply IH. lia.
Qed.

Lemma findall_itag_tokens (s : string) : findall_itag s = itag_tokens s.
Proof. unfold findall_itag. now apply findall_itag_from_tokens. Qed.


End Classification.

(** An unknown itag, 999, in the world of [Demo]. *)
Lemma quality_profile_lookup_witness :
  YT_QUALITY_PROFILES !! 999%Z = None /\
  _get_quality_profile_from_url "http://v/xx?itag=999&signature=Q"
  = Returns (999%Z, None) /\
  @from_url_body Demo.collaborators ∅ "http://yt/player.js"
    (2, "http://v/xx?itag=999&signature=Q") Demo.world0
  = (Returns tt, Demo.world0).
Proof.
  assert (Hnot : 999%Z ∉ [5; 17; 36; 43; 100; 18; 22; 82; 83; 84; 85]%Z).
  { apply (bool_decide_unpack _). vm_compute. exact I. }
  destruct (@quality_profile_lookup Demo.collaborators) as (_ & Hnone & Hskip).
  split; [exact (Hnone 999%Z Hnot)|].
  destruct (Hskip "http://v/xx?itag=999&signature=Q" "999" eq_refl Hnot)
    as [Hqp Hbody].
  split; [exact Hqp | apply Hbody].
Defined.

(** ** The single-match query *)

Section Query.

Lemma rejects_meets (crit attr : option string) :
  rejects crit attr = false <-> meets crit attr.
Proof.
  unfold rejects, meets. destruct (truthy crit); cbn.
  - rewrite negb_false_iff, bool_decide_eq_true. tauto.
  - split; [discriminate | reflexivity].
Qed.

(** The [if]/[elif] chain keeps exactly the videos that meet every
    criterion given. *)
Lemma keeps_matches (ext res prof : option string) (v : Video) :
  keeps ext res prof v = true <-> matches_criteria ext res prof v.
Proof.
  unfold keeps, matches_criteria. rewrite <- !rejects_meets.
  destruct (rejects ext (extension v)), (rejects res (resolution v)),
    (rejects prof (profile v)); intuition congruence.
Qed.

Lemma filter_videos_matching (y : YouTube) (ext res prof : option string)
  (v : Video) :
  v ∈ filter_videos y ext res prof
  <-> v ∈ get_videos y /\ matches_criteria ext res prof v.
Proof.
  unfold filter_videos, get_videos.
  rewrite <- keeps_matches, !list_elem_of_In. apply filter_In.
Qed.

(** The outcomes of [get] over the videos that match the criteria,
    which [filter_videos] lists in collection order.  With exactly one
    match it returns that video; with none it returns, as an ordinary
    value, the [DoesNotExist] object it builds; with more than one it
    raises [MultipleObjectsReturned]. *)
Theorem get_single_match (y : YouTube) (ext res prof : option string) :
  (forall v : Video,
      v ∈ filter_videos y ext res prof
      <-> v ∈ get_videos y /\ matches_criteria ext res prof v) /\
  (forall v : Video,
      filter_videos y ext res prof = [v] ->
      get y ext res prof = Returns (GotVideo v)) /\
  (filter_videos y ext res prof = [] ->
   get y ext res prof = Returns (GotException DoesNotExist)) /\
  (1 < length (filter_videos y ext res prof) ->
   get y ext res prof = Raises MultipleObjectsReturned) /\
  Returns (GotException DoesNotExist) <> Raises MultipleObjectsReturned /\
  (forall v : Video,
      Returns (GotVideo v) <> Returns (GotException DoesNotExist) /\
      Returns (GotVideo v) <> Raises MultipleObjectsReturned).
Proof.
  split; [apply filter_videos_matching|].
  unfold get.
  repeat split; try discriminate.
  - intros v Hone. now rewrite Hone.
  - intros Hnone. now rewrite Hnone.
  - intros Hmany.
    destruct (filter_videos y ext res prof) as [|v [|v' more]];
      cbn in Hmany; try lia. reflexivity.
Qed.

End Query.

(** The two mp4 videos of the page [Demo.watch_ok]: one is 720p, none
    is flv, two are mp4. *)
Lemma get_single_match_witness :
  let hd := Video_new "http://v/hd" "Clip"
              (combine YT_QUALITY_PROFILE_KEYS
                 ["mp4"; "720p"; "H.264"; "High"; "2-2.9"; "AAC"; "192"]) in
  let sd := Video_new "http://v/sd" "Clip"
              (combine YT_QUALITY_PROFILE_KEYS
                 ["mp4"; "360p"; "H.264"; "Baseline"; "0.5"; "AAC"; "96"]) in
  let y := set__videos [sd; hd] YouTube_init in
  get y (Some "mp4") (Some "720p") None = Returns (GotVideo hd) /\
  get y (Some "flv") None None = Returns (GotException DoesNotExist) /\
  get y (Some "mp4") None (Some "") = Raises MultipleObjectsReturned.
Proof.
  intros hd sd y. split; [|split].
  - apply (proj1 (proj2 (get_single_match y (Some "mp4") (Some "720p") None))).
    reflexivity.
  - apply (proj1 (proj2 (proj2 (get_single_match y (Some "flv") None None)))).
    reflexivity.
  - apply (proj1 (proj2 (proj2 (proj2
             (get_single_match y (Some "mp4") None (Some "")))))).
    vm_compute. lia.
Defined.

(** C8: with no match [get] does not signal [DoesNotExist] the way it
    signals [MultipleObjectsReturned].  On a collection of two mp4
    videos, asking for flv ends normally, the value returned being the
    exception object ([return DoesNotExist(...)], line 221), while
    asking for mp4 raises ([raise MultipleObjectsReturned(...)], line
    225): a caller that does not inspect the returned value takes the
    exception object for a video. *)
Lemma get_returns_does_not_exist :
  let hd := Video_new "http://v/hd" "Clip"
              (combine YT_QUALITY_PROFILE_KEYS
                 ["mp4"; "720p"; "H.264"; "High"; "2-2.9"; "AAC"; "192"]) in
  let sd := Video_new "http://v/sd" "Clip"
              (combine YT_QUALITY_PROFILE_KEYS
                 ["mp4"; "360p"; "H.264"; "Baseline"; "0.5"; "AAC"; "96"]) in
  let y := set__videos [sd; hd] YouTube_init in
  filter_videos y (Some "flv") None None = [] /\
  get y (Some "flv") None None = Returns (GotException DoesNotExist) /\
  get y (Some "flv") None None <> Raises DoesNotExist /\
  get y (Some "mp4") None None = Raises MultipleObjectsReturned.
Proof.
  intros hd sd y. repeat split; try reflexivity. discriminate.
Qed.

(** ** The stream-map decoder *)

Section Decoder.

Context {collab : Collaborators}.

Lemma empty_stream_map_lookup (k : string) :
  empty_stream_map !! k
  = if bool_decide (k ∈ STREAM_MAP_FIELDS) then Some [] else None.
Proof.
  case_bool_decide as Hk.
  - unfold STREAM_MAP_FIELDS in Hk.
    repeat (apply elem_of_cons in Hk as [->|Hk]; [reflexivity|]).
    now apply elem_of_nil in Hk.
  - unfold empty_stream_map. apply not_elem_of_list_to_map_1.
    rewrite <- list_fmap_compose. now rewrite list_fmap_id.
Qed.

Lemma get_append_lookup (key v k : string) (dct : gmap string (list string)) :
  get_append key v dct !! k
  = (fun l => l ++ (if String.eqb key k then [v] else [])) <$> dct !! k.
Proof.
  unfold get_append.
  destruct (String.eqb_spec key k) as [->|Hne].
  - destruct (dct !! k) as [l|] eqn:Hl.
    + now rewrite lookup_insert_eq.
    + now rewrite Hl.
  - assert (Hid : forall o : option (list string),
               (fun l => l ++ []) <$> o = o).
    { intros [l|]; cbn; [now rewrite app_nil_r | reflexivity]. }
    rewrite Hid.
    destruct (dct !! key); [now rewrite lookup_insert_ne | reflexivity].
Qed.

Lemma parse_kv_lookup (dct dct' : gmap string (list string)) (kv k : string) :
  parse_kv dct kv = Returns dct' ->
  dct' !! k = (fun l => l ++ option_list (kv_value k kv)) <$> dct !! k.
Proof.
  unfold parse_kv, kv_value, kv_pair.
  destruct (Text.split "=" kv) as [|key [|value [|extra more]]];
    try discriminate.
  intros [= <-]. rewrite get_append_lookup.
  now destruct (String.eqb key k).
Qed.

Lemma fmap_app_app (o : option (list string)) (a b : list string) :
  (fun l => l ++ b) <$> ((fun l => l ++ a) <$> o)
  = (fun l => l ++ (a ++ b)) <$> o.
Proof. destruct o; cbn; [now rewrite app_assoc | reflexivity]. Qed.

Lemma parse_video_lookup (video : list string) :
  forall (dct dct' : gmap string (list string)) (k : string),
    parse_video dct video = Returns dct' ->
    dct' !! k = (fun l => l ++ omap (kv_value k) video) <$> dct !! k.
Proof.
  induction video as [|kv video IH]; intros dct dct' k Hrun; cbn in Hrun.
  - injection Hrun as <-. cbn.
    destruct (dct !! k); cbn; [now rewrite app_nil_r | reflexivity].
  - destruct (parse_kv dct kv) as [dct1|e] eqn:Hkv; [|discriminate].
    rewrite (IH _ _ k Hrun), (parse_kv_lookup _ _ _ k Hkv), fmap_app_app.
    simpl. now destruct (kv_value k kv).
Qed.

Lemma parse_videos_lookup (blobs : list string) :
  forall (dct dct' : gmap string (list string)) (k : string),
    parse_videos dct (Text.split "&" <$> blobs) = Returns dct' ->
    dct' !! k
    = (fun l => l ++ concat (segment_values k <$> blobs)) <$> dct !! k.
Proof.
  induction blobs as [|seg blobs IH]; intros dct dct' k Hrun; cbn in Hrun.
  - injection Hrun as <-. cbn.
    destruct (dct !! k); cbn; [now rewrite app_nil_r | reflexivity].
  - destruct (parse_video dct (Text.split "&" seg)) as [dct1|e] eqn:Hseg;
      [|discriminate].
    rewrite (IH _ _ k Hrun), (parse_video_lookup _ _ _ k Hseg), fmap_app_app.
    reflexivity.
Qed.

(** What the decoder returns: under each of the six fields, the decoded
    values of the sub-segments with that key, in blob order; nothing
    under any other key. *)
Lemma parse_stream_map_lookup (blob : string)
  (dct : gmap string (list string)) (k : string) :
  _parse_stream_map blob = Returns dct ->
  dct !! k
  = if bool_decide (k ∈ STREAM_MAP_FIELDS)
    then Some (concat (segment_values k <$> segments blob))
    else None.
Proof.
  intros Hrun. unfold _parse_stream_map in Hrun.
  rewrite (parse_videos_lookup _ _ _ k Hrun), empty_stream_map_lookup.
  now case_bool_decide.
Qed.

Lemma parse_video_returns (video : list string) :
  forall dct : gmap string (list string),
    forallb (fun kv => (length (Text.split "=" kv) =? 2)%nat) video = true ->
    exists dct', parse_video dct video = Returns dct'.
Proof.
  induction video as [|kv video IH]; intros dct Hok; cbn in *.
  - now exists dct.
  - apply andb_true_iff in Hok as [Hkv Hrest].
    unfold parse_kv.
    destruct (Text.split "=" kv) as [|key [|value [|extra more]]];
      try discriminate.
    now apply IH.
Qed.

Lemma parse_videos_returns (blobs : list string) :
  forall dct : gmap string (list string),
    forallb well_formed_segment blobs = true ->
    exists dct', parse_videos dct (Text.split "&" <$> blobs) = Returns dct'.
Proof.
  induction blobs as [|seg blobs IH]; intros dct Hok; cbn in *.
  - now exists dct.
  - apply andb_true_iff in Hok as [Hseg Hrest].
    apply andb_true_iff in Hseg as [Hkvs _].
    destruct (parse_video_returns _ dct Hkvs) as [dct1 ->].
    now apply IH.
Qed.

Lemma omap_cons_eq {A B : Type} (f : A -> option B) (a : A) (l : list A) :
  omap f (a :: l)
  = match f a with Some b => b :: omap f l | None => omap f l end.
Proof. reflexivity. Qed.

Lemma kv_value_key (k kv v : string) :
  kv_value k kv = Some v -> kv_key kv = k.
Proof.
  unfold kv_value, kv_pair, kv_key.
  destruct (Text.split "=" kv) as [|key [|value [|extra more]]];
    try discriminate.
  destruct (String.eqb_spec key k) as [->|]; [reflexivity | discriminate].
Qed.

Lemma kv_values_absent (k : string) (video : list string) :
  k ∉ kv_key <$> video -> omap (kv_value k) video = [].
Proof.
  induction video as [|kv video IH]; intros Hnot; [reflexivity|].
  rewrite fmap_cons, not_elem_of_cons in Hnot. destruct Hnot as [Hne Hnot].
  rewrite omap_cons_eq. destruct (kv_value k kv) as [v|] eqn:Hv.
  - apply kv_value_key in Hv. congruence.
  - now apply IH.
Qed.

(** A segment that names no key twice gives a field at most one value. *)
Lemma kv_values_at_most_one (k : string) (video : list string) :
  NoDup (kv_key <$> video) -> length (omap (kv_value k) video) <= 1.
Proof.
  induction video as [|kv video IH]; intros Hnodup; [cbn; lia|].
  rewrite fmap_cons in Hnodup. apply NoDup_cons in Hnodup as [Hfresh Hnodup].
  rewrite omap_cons_eq. destruct (kv_value k kv) as [v|] eqn:Hv.
  - apply kv_value_key in Hv. subst k.
    rewrite (kv_values_absent _ _ Hfresh). cbn. lia.
  - now apply IH.
Qed.

Lemma concat_at_most_one {A B : Type} (f : A -> list B) (l : list A) :
  Forall (fun a => length (f a) <= 1) l ->
  concat (f <$> l) = omap (fun a => head (f a)) l.
Proof.
  induction 1 as [|a l Ha Hl IH]; [reflexivity|].
  rewrite fmap_cons, omap_cons_eq. cbn [concat]. rewrite IH.
  destruct (f a) as [|b [|b' more]]; cbn in *; [reflexivity | reflexivity | lia].
Qed.

(** The members of [omap f l] are, in order, the values that [f] gives
    to the members of [l] on which it is defined. *)
Lemma omap_filter_Forall2 {A B : Type} (f : A -> option B) (l : list A) :
  Forall2 (fun b a => f a = Some b) (omap f l)
    (List.filter (fun a => match f a with Some _ => true | None => false end) l).
Proof.
  induction l as [|a l IH]; [constructor|].
  rewrite omap_cons_eq. cbn [List.filter].
  destruct (f a) as [b|] eqn:Hb; [now constructor | exact IH].
Qed.

Lemma filter_all {A : Type} (p : A -> bool) (l : list A) :
  (forall a, a ∈ l -> p a = true) -> List.filter p l = l.
Proof.
  induction l as [|a l IH]; intros Hall; [reflexivity|].
  simpl. rewrite (Hall a) by constructor.
  f_equal. apply IH. intros b Hb. apply Hall. now constructor.
Qed.

Lemma well_formed_segment_values (k : string) (blobs : list string) :
  forallb well_formed_segment blobs = true ->
  concat (segment_values k <$> blobs) = omap (segment_value k) blobs.
Proof.
  intros Hok. unfold segment_value. apply concat_at_most_one.
  apply Forall_forall. intros seg Hseg.
  rewrite forallb_forall in Hok. apply list_elem_of_In in Hseg.
  specialize (Hok seg Hseg). apply andb_true_iff in Hok as [_ Hnodup].
  apply bool_decide_eq_true in Hnodup.
  now apply kv_values_at_most_one.
Qed.

(** C1: on a well-formed blob the decoder returns, and for each of the
    six fields the sequence it returns lines up with the segments that
    carry the field, in segment order: its i-th value is the decoded
    value that the i-th such segment gives the field.  For a field that
    every segment carries, the sequence has one value per segment, the
    i-th from the i-th segment: the i-th values of these sequences are
    the decoded record of the i-th segment. *)
Theorem parse_stream_map_segment_order (blob : string) :
  well_formed blob = true ->
  exists dct : gmap string (list string),
    _parse_stream_map blob = Returns dct /\
    forall k : string,
      k ∈ STREAM_MAP_FIELDS ->
      exists values : list string,
        dct !! k = Some values /\
        Forall2 (fun value seg => segment_value k seg = Some value)
          values (List.filter (carries k) (segments blob)) /\
        ((forall seg, seg ∈ segments blob -> carries k seg = true) ->
         length values = length (segments blob) /\
         forall (i : nat) (seg : string),
           segments blob !! i = Some seg ->
           values !! i = segment_value k seg).
Proof.
  intros Hok. unfold well_formed in Hok.
  destruct (parse_videos_returns _ empty_stream_map Hok) as [dct Hrun].
  exists dct. split; [exact Hrun|].
  intros k Hk.
  exists (omap (segment_value k) (segments blob)).
  assert (Hpairs :
    Forall2 (fun value seg => segment_value k seg = Some value)
      (omap (segment_value k) (segments blob))
      (List.filter (carries k) (segments blob))).
  { apply omap_filter_Forall2. }
  split; [|split].
  - rewrite (parse_stream_map_lookup blob dct k Hrun).
    rewrite bool_decide_eq_true_2 by exact Hk.
    now rewrite well_formed_segment_values.
  - exact Hpairs.
  - intros Hall. rewrite (filter_all _ _ Hall) in Hpairs.
    split; [exact (Forall2_length _ _ _ Hpairs)|].
    intros i seg Hseg.
    destruct (Forall2_lookup_r _ _ _ _ _ Hpairs Hseg) as (value & Hvalue & Heq).
    now rewrite Hvalue, Heq.
Qed.

(** C5 (as amended): a sub-segment whose key is not one of the six
    field names is decoded without an error and leaves no trace.  The
    decoder's output has exactly the six fields, and under each of them
    only the values of the sub-segments with that key. *)
Theorem parse_stream_map_drops_unknown_keys :
  (forall (dct : gmap string (list string)) (kv key value : string),
      Text.split "=" kv = [key; value] ->
      dct !! key = None ->
      parse_kv dct kv = Returns dct) /\
  (forall (blob : string) (dct : gmap string (list string)),
      _parse_stream_map blob = Returns dct ->
      dom dct = list_to_set STREAM_MAP_FIELDS /\
      (forall key : string, key ∉ STREAM_MAP_FIELDS -> dct !! key = None) /\
      (forall k : string,
          k ∈ STREAM_MAP_FIELDS ->
          dct !! k = Some (concat (segment_values k <$> segments blob)))).
Proof.
  split.
  - intros dct kv key value Hsplit Hkey.
    unfold parse_kv, get_append. now rewrite Hsplit, Hkey.
  - intros blob dct Hrun.
    pose proof (parse_stream_map_lookup blob dct) as Hlookup.
    split; [|split].
    + apply set_eq. intros k.
      rewrite elem_of_dom, elem_of_list_to_set, (Hlookup k Hrun).
      case_bool_decide as Hk; split; intros H; try done.
    + intros key Hkey. rewrite (Hlookup key Hrun).
      now rewrite bool_decide_eq_false_2.
    + intros k Hk. rewrite (Hlookup k Hrun).
      now rewrite bool_decide_eq_true_2.
Qed.

End Decoder.

(** The stream map of the page [Demo.watch_ok]: three segments, each
    with an itag, a url, a signature token and a quality. *)
Lemma parse_stream_map_segment_order_witness :
  exists dct : gmap string (list string),
    @_parse_stream_map Demo.collaborators
      (Demo.record_hd +:+ "," +:+ Demo.record_sd +:+ "," +:+ Demo.record_unknown)
    = Returns dct /\
    exists values : list string,
      dct !! "itag" = Some values /\ length values = 3.
Proof.
  destruct (@parse_stream_map_segment_order Demo.collaborators
              (Demo.record_hd +:+ "," +:+ Demo.record_sd +:+ ","
               +:+ Demo.record_unknown))
    as (dct & Hrun & Hfields); [vm_compute; reflexivity|].
  exists dct. split; [exact Hrun|].
  destruct (Hfields "itag") as (values & Hvalues & _ & Hall).
  { apply (bool_decide_unpack _). vm_compute. exact I. }
  exists values. split; [exact Hvalues|].
  apply Hall. intros seg Hseg.
  vm_compute in Hseg.
  repeat (apply elem_of_cons in Hseg as [->|Hseg]; [vm_compute; reflexivity|]).
  now apply elem_of_nil in Hseg.
Defined.

(** A blob with the unknown key [foo]. *)
Lemma parse_stream_map_drops_unknown_keys_witness :
  exists dct : gmap string (list string),
    @_parse_stream_map Demo.collaborators "itag=5&foo=bar" = Returns dct /\
    dct !! "foo" = None /\
    dct !! "itag" = Some ["5"].
Proof.
  destruct (@_parse_stream_map Demo.collaborators "itag=5&foo=bar")
    as [dct|e] eqn:Hrun; [|vm_compute in Hrun; discriminate Hrun].
  exists dct. split; [reflexivity|].
  destruct (proj2 (@parse_stream_map_drops_unknown_keys Demo.collaborators)
              "itag=5&foo=bar" dct Hrun) as (_ & Hunknown & Hknown).
  split.
  - apply Hunknown. apply (bool_decide_unpack _). vm_compute. exact I.
  - rewrite Hknown; [reflexivity|].
    apply (bool_decide_unpack _). vm_compute. exact I.
Defined.

(** C5 (as stated) fails: the blob ["itag=5&foo=bar"] decodes to the
    same mapping as ["itag=5"]; the key [foo] is not in it. *)
Lemma parse_stream_map_loses_unknown_key :
  @_parse_stream_map Demo.collaborators "itag=5&foo=bar"
  = @_parse_stream_map Demo.collaborators "itag=5" /\
  exists dct : gmap string (list string),
    @_parse_stream_map Demo.collaborators "itag=5&foo=bar" = Returns dct /\
    dct !! "foo" = None.
Proof.
  split; [vm_compute; reflexivity|].
  eexists. split; [vm_compute; reflexivity|].
  vm_compute; reflexivity.
Qed.

(** ** The pipeline *)

Section Pipeline.

Context {collab : Collaborators}.

Lemma startswith_app (p rest : string) :
  Text.startswith p (p +:+ rest) = true.
Proof.
  induction p as [|c p IH]; [reflexivity|].
  rewrite string_app_cons. cbn [Text.startswith].
  now rewrite Ascii.eqb_refl, IH.
Qed.

Lemma find_eq (p s : string) :
  Text.find p s
  = if Text.startswith p s then Some 0
    else match s with
         | EmptyString => None
         | String _ s' => S <$> Text.find p s'
         end.
Proof. destruct s; reflexivity. Qed.

(** [p in s] holds of every text that has [p] somewhere inside. *)
Lemma contains_app (p before after : string) :
  Text.contains p (before +:+ p +:+ after) = true.
Proof.
  unfold Text.contains.
  induction before as [|c before IH].
  - rewrite string_app_nil, find_eq. now rewrite startswith_app.
  - rewrite string_app_cons, find_eq.
    destruct (Text.startswith p _); [reflexivity|].
    destruct (Text.find p (before +:+ p +:+ after)); [reflexivity | discriminate].
Qed.

(** C7: when the fetched page has the marker [og:restrictions:age]
    somewhere in its text, [get_video_data], and [from_url] with it,
    raises [AgeRestricted]; the only call made is the fetch of the page,
    so [json.loads] is never reached, and the outcome does not depend on
    what the bracket scanner would do with the page. *)
Theorem age_restricted_before_config_extraction
  (u html before after : string) :
  urlopen u = Some html ->
  html = (before +:+ "og:restrictions:age" +:+ after)%string ->
  (forall w : World,
      _video_url (self w) = Some u ->
      get_video_data w
      = (Raises AgeRestricted,
         {| self := set_title None (self w);
            calls := calls w ++ [Urlopen u] |})) /\
  (forall w : World,
      from_url u w
      = (Raises AgeRestricted,
         {| self := set_title None (self (prepared u w));
            calls := calls w ++ [Urlopen u] |})).
Proof.
  intros Hopen Hhtml.
  assert (Hage : Text.contains "og:restrictions:age" html = true).
  { rewrite Hhtml. apply contains_app. }
  assert (Hdata : forall w : World,
             _video_url (self w) = Some u ->
             get_video_data w
             = (Raises AgeRestricted,
                {| self := set_title None (self w);
                   calls := calls w ++ [Urlopen u] |})).
  { intros w Hurl. unfold get_video_data, bind, modify_self, get_self, log_call.
    cbn [self calls set_title _video_url]. rewrite Hurl.
    cbn [self calls]. now rewrite Hopen, Hage. }
  split; [exact Hdata|].
  intros w. unfold from_url, bind at 1 2 3, modify_self.
  cbn [self calls]. fold (prepared u w).
  now rewrite (Hdata (prepared u w) eq_refl).
Qed.

(** *** The cipher script cache *)

(** With a non-empty script text cached, a resolution is the pure
    transform of the cached text: no call is made, nothing changes. *)
Lemma get_cipher_cached (w : World) (signature js_url code : string) :
  _js_code (self w) = Some code ->
  code <> "" ->
  _get_cipher signature js_url w = (cipher_with code signature, w).
Proof.
  intros Hcode Hne. unfold _get_cipher, bind, get_self, cipher_with.
  rewrite Hcode. cbn [truthy negb default from_option id].
  apply String.eqb_neq in Hne. rewrite Hne. cbn [negb ret].
  destruct (search_cipher_name code) as [func|]; [|reflexivity].
  now destruct (js_call code func signature).
Qed.

(** With nothing usable cached, a resolution fetches the script and
    stores its text. *)
Lemma get_cipher_fetches (w : World) (signature js_url text : string) :
  truthy (_js_code (self w)) = false ->
  urlopen js_url = Some text ->
  _get_cipher signature js_url w
  = (cipher_with text signature,
     {| self := set__js_code (Some text) (self w);
        calls := calls w ++ [Urlopen js_url] |}).
Proof.
  intros Hfalsy Hopen. unfold _get_cipher, bind, get_self, cipher_with.
  rewrite Hfalsy. cbn [negb]. unfold bind, log_call, modify_self.
  rewrite Hopen. cbn [self calls ret].
  destruct (search_cipher_name text) as [func|]; [|reflexivity].
  now destruct (js_call text func signature).
Qed.

(** *** Failures inside the loop of [from_url] *)

Lemma for_each_cons {A : Type} (body : A -> M unit) (x : A) (l : list A)
  (w : World) :
  for_each body (x :: l) w
  = match body x w with
    | (Returns _, w') => for_each body l w'
    | (Raises e, w') => (Raises e, w')
    end.
Proof. reflexivity. Qed.

(** C2 (as amended): in the loop of [from_url] only a candidate whose
    itag has no quality profile is skipped, the loop going on with the
    remaining candidates from the same state.  A failure to extract the
    itag and a failure to resolve the cipher both end the loop and
    [from_url] with the exception, the remaining candidates unvisited;
    so does every exception of [get_video_data] (page fetch, age
    restriction, config extraction, stream-map decoding). *)
Theorem record_failures_in_from_url :
  (forall (stream_map : gmap string (list string)) (js_url : string)
          (idx : nat) (u : string) (rest : list (nat * string)) (w : World)
          (itag : Z),
      _get_quality_profile_from_url u = Returns (itag, None) ->
      for_each (from_url_body stream_map js_url) ((idx, u) :: rest) w
      = for_each (from_url_body stream_map js_url) rest w) /\
  (forall (stream_map : gmap string (list string)) (js_url : string)
          (idx : nat) (u : string) (rest : list (nat * string)) (w : World)
          (msg : pytube_msg),
      _get_quality_profile_from_url u = Raises (PytubeError msg) ->
      for_each (from_url_body stream_map js_url) ((idx, u) :: rest) w
      = (Raises (PytubeError msg), w)) /\
  (forall (stream_map : gmap string (list string)) (js_url : string)
          (idx : nat) (u : string) (rest : list (nat * string)) (w w' : World)
          (itag : Z) (quality_profile : kwargs) (sigs : list string)
          (s : string) (e : exn),
      _get_quality_profile_from_url u = Returns (itag, Some quality_profile) ->
      quality_profile <> [] ->
      Text.contains "signature=" u = false ->
      stream_map !! "s" = Some sigs ->
      sigs !! idx = Some s ->
      _get_cipher s js_url w = (Raises e, w') ->
      for_each (from_url_body stream_map js_url) ((idx, u) :: rest) w
      = (Raises e, w')) /\
  (forall (u : string) (w w' : World) (e : exn),
      get_video_data (prepared u w) = (Raises e, w') ->
      from_url u w = (Raises e, w')).
Proof.
  split; [|split; [|split]].
  - intros stream_map js_url idx u rest w itag Hqp.
    rewrite for_each_cons. unfold from_url_body. now rewrite Hqp.
  - intros stream_map js_url idx u rest w msg Hqp.
    rewrite for_each_cons. unfold from_url_body. now rewrite Hqp.
  - intros stream_map js_url idx u rest w w' itag quality_profile sigs s e
      Hqp Hne Hsig Hs Hidx Hcipher.
    rewrite for_each_cons. unfold from_url_body. rewrite Hqp.
    destruct quality_profile as [|kw quality_profile]; [contradiction|].
    cbn [is_empty_kwargs]. rewrite Hsig. cbn [negb].
    rewrite Hs, Hidx. unfold bind at 1 2. now rewrite Hcipher.
  - intros u w w' e Hdata.
    unfold from_url, bind at 1 2 3, modify_self.
    cbn [self calls]. fold (prepared u w). now rewrite Hdata.
Qed.

End Pipeline.

(** ** The videos collected by earlier resolutions *)

Section Frame.

Context {collab : Collaborators}.

(** [list.sort] rearranges the list it is given. *)
Hypothesis video_sort_permutation :
  forall l : list Video, Permutation (video_sort l) l.

Variable old : list Video.

Lemma simulates_ret {A : Type} (a : A) : simulates old (ret a) (ret a).
Proof. intros wa wb Hext. cbn. now split. Qed.

Lemma simulates_raise {A : Type} (e : exn) :
  simulates old (@raise A e) (raise e).
Proof. intros wa wb Hext. cbn. now split. Qed.

Lemma simulates_lift {A : Type} (r : result A) :
  simulates old (lift r) (lift r).
Proof. intros wa wb Hext. cbn. now split. Qed.

Lemma simulates_log_call (c : call) : simulates old (log_call c) (log_call c).
Proof.
  intros wa wb (Hf & Hu & Hj & Ht & Hc & Hv). cbn. split; [reflexivity|].
  unfold extends_videos. cbn. now rewrite Hc.
Qed.



Lemma simulates_set__filename (v : option string) :
  simulates old (modify_self (set__filename v)) (modify_self (set__filename v)).
Proof.
  intros wa wb (Hf & Hu & Hj & Ht & Hc & Hv). cbn. now repeat split.
Qed.

Lemma simulates_set__video_url (v : option string) :
  simulates old (modify_self (set__video_url v))
    (modify_self (set__video_url v)).
Proof.
  intros wa wb (Hf & Hu & Hj & Ht & Hc & Hv). cbn. now repeat split.
Qed.

Lemma simulates_set__js_code (v : option string) :
  simulates old (modify_self (set__js_code v)) (modify_self (set__js_code v)).
Proof.
  intros wa wb (Hf & Hu & Hj & Ht & Hc & Hv). cbn. now repeat split.
Qed.

Lemma simulates_set_title (v : option string) :
  simulates old (modify_self (set_title v)) (modify_self (set_title v)).
Proof.
  intros wa wb (Hf & Hu & Hj & Ht & Hc & Hv). cbn. now repeat split.
Qed.

(** Appending a video and sorting keeps the videos of [old] in. *)
Lemma simulates__add_video (u fn : string) (kw : kwargs) :
  simulates old (_add_video u fn kw) (_add_video u fn kw).
Proof.
  intros wa wb (Hf & Hu & Hj & Ht & Hc & Hv).
  unfold _add_video, bind, modify_self. cbn.
  split; [reflexivity|]. unfold extends_videos. cbn.
  repeat split; try assumption.
  rewrite !video_sort_permutation, Hv. now rewrite app_assoc.
Qed.

Create HintDb simulates.

#[local] Hint Resolve simulates_ret simulates_raise simulates_lift simulates_log_call
  simulates_set__filename simulates_set__video_url simulates_set__js_code
  simulates_set_title simulates__add_video : simulates.









End Frame.


(** ** The properties in the world of [Demo] *)

Lemma demo_insert_video_permutation (v : Video) (l : list Video) :
  Permutation (Demo.insert_video v l) (v :: l).
Proof.
  induction l as [|x l IH]; cbn [Demo.insert_video]; [reflexivity|].
  destruct (String.leb _ _); [reflexivity|].
  rewrite IH. apply perm_swap.
Qed.

Lemma demo_video_sort_permutation (l : list Video) :
  Permutation (Demo.video_sort l) l.
Proof.
  induction l as [|v l IH]; [reflexivity|].
  unfold Demo.video_sort. cbn [fold_right]. fold (Demo.video_sort l).
  rewrite demo_insert_video_permutation. now constructor.
Qed.


(** The age-restricted page of [Demo]; its text has a stray closing
    brace, on which the bracket scanner, were it run, would raise
    [IndexError]. *)
Lemma age_restricted_before_config_extraction_witness :
  (@_get_json_data Demo.collaborators
     "<html><meta property='og:restrictions:age' content='18+'>}</html>"
     Demo.world0).1
  = Raises IndexError /\
  @from_url Demo.collaborators Demo.watch_age Demo.world0
  = (Raises AgeRestricted,
     {| self := set_title None
                  (set__video_url (Some Demo.watch_age) YouTube_init);
        calls := [Urlopen Demo.watch_age] |}).
Proof.
  split; [vm_compute; reflexivity|].
  exact (proj2 (@age_restricted_before_config_extraction Demo.collaborators
                  Demo.watch_age
                  "<html><meta property='og:restrictions:age' content='18+'>}</html>"
                  "<html><meta property='" "' content='18+'>}</html>"
                  eq_refl eq_refl)
           Demo.world0).
Defined.

(** One candidate of each kind, in the world of [Demo]. *)
Lemma record_failures_in_from_url_witness :
  let body :=
    @from_url_body Demo.collaborators {[ "s" := ["abc"] ]}
      "http://yt/changed.js" in
  let rest := [(1, "http://v/sd?itag=18&signature=XY")] in
  for_each body ((0, "http://v/xx?itag=999&signature=Q") :: rest) Demo.world0
  = for_each body rest Demo.world0 /\
  for_each body ((0, "http://v/none?signature=Z") :: rest) Demo.world0
  = (Raises (PytubeError NoItagFound), Demo.world0) /\
  for_each body ((0, "http://v/hd?itag=22") :: rest) Demo.world0
  = (Raises CipherError,
     {| self := set__js_code (Some "var f=function(g){g.sig2(g.s)}") YouTube_init;
        calls := [Urlopen "http://yt/changed.js"] |}) /\
  @from_url Demo.collaborators "http://nowhere" Demo.world0
  = (Raises (PytubeError UnableToOpenUrl),
     {| self := set_title None
                  (set__video_url (Some "http://nowhere") YouTube_init);
        calls := [Urlopen "http://nowhere"] |}).
Proof.
  intros body rest.
  destruct (@record_failures_in_from_url Demo.collaborators)
    as (Hskip & Hitag & Hcipher & Hfatal).
  split; [|split; [|split]].
  - apply (Hskip _ _ _ _ _ _ 999%Z). reflexivity.
  - apply Hitag. reflexivity.
  - apply (Hcipher _ _ _ _ _ _ _ 22%Z
             (combine YT_QUALITY_PROFILE_KEYS
                ["mp4"; "720p"; "H.264"; "High"; "2-2.9"; "AAC"; "192"])
             ["abc"] "abc");
      [reflexivity | discriminate | reflexivity | reflexivity | reflexivity
      | reflexivity].
  - apply Hfatal. reflexivity.
Defined.

(** C2 (as stated) fails.  On the page [Demo.watch_bad_cipher] the
    cipher of the first candidate cannot be resolved, and on
    [Demo.watch_no_itag] the first candidate has no itag; the second
    candidate of both pages is the one that [Demo.watch_ok] resolves.
    Both calls end with the exception and no video. *)
Lemma record_failure_aborts_from_url :
  (@from_url Demo.collaborators Demo.watch_bad_cipher Demo.world0).1
  = Raises CipherError /\
  get_videos
    (self (@from_url Demo.collaborators Demo.watch_bad_cipher Demo.world0).2)
  = [] /\
  (@from_url Demo.collaborators Demo.watch_no_itag Demo.world0).1
  = Raises (PytubeError NoItagFound) /\
  get_videos
    (self (@from_url Demo.collaborators Demo.watch_no_itag Demo.world0).2)
  = [] /\
  (@from_url Demo.collaborators Demo.watch_ok Demo.world0).1 = Returns tt /\
  url <$> get_videos
            (self (@from_url Demo.collaborators Demo.watch_ok Demo.world0).2)
  = ["http://v/sd?itag=18&signature=XY"; "http://v/hd?itag=22&signature=cba"].
Proof.
  split; [|split; [|split; [|split; [|split]]]]; vm_compute; reflexivity.
Qed.

(** * Further properties *)

(** ** More on the stream-map decoder *)

Section DecoderMore.

Context {collab : Collaborators}.

Lemma split_length (sep : ascii) (s : string) :
  length (Text.split sep s) = S (count_char sep s).
Proof.
  induction s as [|c s IH]; [reflexivity|].
  cbn [Text.split count_char].
  destruct (Ascii.eqb c sep); cbn [length]; [now rewrite IH|].
  destruct (Text.split sep s) as [|piece pieces]; [discriminate IH|].
  cbn [length] in *. lia.
Qed.

Lemma split_app (sep : ascii) (a b : string) :
  Text.split sep (a +:+ String sep b) = Text.split sep a ++ Text.split sep b.
Proof.
  induction a as [|c a IH].
  - rewrite string_app_nil. cbn [Text.split]. now rewrite Ascii.eqb_refl.
  - rewrite string_app_cons. cbn [Text.split]. rewrite IH.
    destruct (Ascii.eqb c sep); [reflexivity|].
    pose proof (split_length sep a) as Hlen.
    destruct (Text.split sep a) as [|piece pieces]; [discriminate Hlen|].
    reflexivity.
Qed.

(** A sub-segment is accepted exactly when it has one equals sign,
    whatever the lists collected so far. *)
Lemma parse_kv_returns (dct : gmap string (list string)) (kv : string) :
  (exists dct', parse_kv dct kv = Returns dct') <-> count_char "=" kv = 1.
Proof.
  unfold parse_kv. pose proof (split_length "=" kv) as Hlen.
  destruct (Text.split "=" kv) as [|key [|value [|extra more]]];
    cbn [length] in Hlen; split; intros H;
    try (exfalso; lia); try (now destruct H); eauto; lia.
Qed.

Lemma parse_kv_raises (dct : gmap string (list string)) (kv : string) (e : exn) :
  parse_kv dct kv = Raises e -> e = ValueError.
Proof.
  unfold parse_kv.
  destruct (Text.split "=" kv) as [|key [|value [|extra more]]]; congruence.
Qed.

Lemma parse_video_outcome (video : list string) :
  forall dct : gmap string (list string),
    ((exists dct', parse_video dct video = Returns dct')
     <-> Forall (fun kv => count_char "=" kv = 1) video) /\
    (forall e, parse_video dct video = Raises e -> e = ValueError).
Proof.
  induction video as [|kv video IH]; intros dct; cbn [parse_video].
  - split; [split; eauto | discriminate].
  - pose proof (parse_kv_returns dct kv) as Hkv.
    destruct (parse_kv dct kv) as [dct1|e1] eqn:Hrun.
    + destruct (IH dct1) as [Hiff Hraise]. split; [|exact Hraise].
      rewrite Forall_cons, Hiff. split; [|tauto].
      intros Hrest. split; [apply Hkv; eauto | exact Hrest].
    + split.
      * split; [intros [dct' H]; discriminate H|].
        intros Hall. apply Forall_cons in Hall as [Hone _].
        apply Hkv in Hone as [dct' H]. discriminate H.
      * intros e [= <-]. exact (parse_kv_raises _ _ _ Hrun).
Qed.

Lemma parse_videos_outcome (blobs : list string) :
  forall dct : gmap string (list string),
    ((exists dct', parse_videos dct (Text.split "&" <$> blobs) = Returns dct')
     <-> Forall (fun seg =>
                   Forall (fun kv => count_char "=" kv = 1) (Text.split "&" seg))
           blobs) /\
    (forall e,
        parse_videos dct (Text.split "&" <$> blobs) = Raises e ->
        e = ValueError).
Proof.
  induction blobs as [|seg blobs IH]; intros dct;
    rewrite ?fmap_cons; cbn [parse_videos fmap list_fmap].
  - split; [split; eauto | discriminate].
  - destruct (parse_video_outcome (Text.split "&" seg) dct) as [Hseg Hsegraise].
    destruct (parse_video dct (Text.split "&" seg)) as [dct1|e1] eqn:Hrun.
    + destruct (IH dct1) as [Hiff Hraise]. split; [|exact Hraise].
      rewrite Forall_cons, Hiff. split; [|tauto].
      intros Hrest. split; [apply Hseg; eauto | exact Hrest].
    + split.
      * split; [intros [dct' H]; discriminate H|].
        intros Hall. apply Forall_cons in Hall as [Hone _].
        apply Hseg in Hone as [dct' H]. discriminate H.
      * intros e [= <-]. now apply Hsegraise.
Qed.

(** X1: the decoder returns exactly when every sub-segment of every
    segment has one equals sign; otherwise it raises [ValueError], the
    failed unpacking of [kv.split("=")], and never anything else.  The
    empty blob, whose only sub-segment is empty, is among the blobs it
    rejects. *)
Theorem parse_stream_map_outcome (blob : string) :
  ((exists dct, _parse_stream_map blob = Returns dct)
   <-> forall seg kv : string,
         seg ∈ segments blob -> kv ∈ Text.split "&" seg ->
         count_char "=" kv = 1) /\
  (forall e : exn, _parse_stream_map blob = Raises e -> e = ValueError) /\
  _parse_stream_map "" = Raises ValueError.
Proof.
  destruct (parse_videos_outcome (segments blob) empty_stream_map)
    as [Hiff Hraise].
  split; [|split; [exact Hraise | reflexivity]].
  unfold _parse_stream_map. fold (segments blob). rewrite Hiff.
  rewrite Forall_forall. setoid_rewrite Forall_forall.
  split; intros Hall; [intros seg kv Hseg Hkv | intros seg Hseg kv Hkv];
    now apply (Hall seg).
Qed.

(** X2: decoding two blobs joined by a comma puts their decoded
    fields end to end: the joined blob decodes when both do, and each
    field's sequence is the first blob's followed by the second's. *)
Theorem parse_stream_map_concat (blob1 blob2 : string)
  (dct1 dct2 : gmap string (list string)) :
  _parse_stream_map blob1 = Returns dct1 ->
  _parse_stream_map blob2 = Returns dct2 ->
  exists dct : gmap string (list string),
    _parse_stream_map (blob1 +:+ String "," blob2) = Returns dct /\
    forall k : string, dct !! k = concat_fields (dct1 !! k) (dct2 !! k).
Proof.
  intros Hrun1 Hrun2.
  assert (Hsegs : segments (blob1 +:+ String "," blob2)
                  = segments blob1 ++ segments blob2)
    by apply split_app.
  assert (Haccepted : forall blob dct0,
             _parse_stream_map blob = Returns dct0 ->
             Forall (fun seg =>
                       Forall (fun kv => count_char "=" kv = 1)
                         (Text.split "&" seg))
               (segments blob)).
  { intros blob dct0 Hrun0.
    apply (proj1 (proj1 (parse_videos_outcome (segments blob) empty_stream_map))).
    now exists dct0. }
  destruct (proj2 (proj1 (parse_videos_outcome
                            (segments (blob1 +:+ String "," blob2))
                            empty_stream_map))) as [dct Hrun].
  { rewrite Hsegs. apply Forall_app. split; eauto. }
  exists dct. split; [exact Hrun|]. intros k.
  rewrite (parse_stream_map_lookup _ _ k Hrun),
    (parse_stream_map_lookup _ _ k Hrun1),
    (parse_stream_map_lookup _ _ k Hrun2), Hsegs.
  case_bool_decide; [|reflexivity].
  cbn [concat_fields]. now rewrite fmap_app, concat_app.
Qed.

End DecoderMore.

Lemma parse_stream_map_outcome_witness :
  (exists dct, @_parse_stream_map Demo.collaborators "itag=5&url=a,itag=6"
               = Returns dct) /\
  @_parse_stream_map Demo.collaborators "itag=5&url,itag=6" = Raises ValueError.
Proof.
  split.
  - apply (proj1 (@parse_stream_map_outcome Demo.collaborators
                    "itag=5&url=a,itag=6")).
    intros seg kv Hseg Hkv. vm_compute in Hseg.
    repeat (apply elem_of_cons in Hseg as [->|Hseg];
            [vm_compute in Hkv;
             repeat (apply elem_of_cons in Hkv as [->|Hkv]; [reflexivity|]);
             now apply elem_of_nil in Hkv|]).
    now apply elem_of_nil in Hseg.
  - destruct (@_parse_stream_map Demo.collaborators "itag=5&url,itag=6")
      as [dct|e] eqn:Hrun; [vm_compute in Hrun; discriminate Hrun|].
    f_equal.
    exact (proj1 (proj2 (@parse_stream_map_outcome Demo.collaborators
                           "itag=5&url,itag=6")) e Hrun).
Defined.

Lemma parse_stream_map_concat_witness :
  exists dct : gmap string (list string),
    @_parse_stream_map Demo.collaborators "itag=5&url=a,itag=6" = Returns dct /\
    dct !! "itag" = Some ["5"; "6"].
Proof.
  destruct (@_parse_stream_map Demo.collaborators "itag=5&url=a")
    as [dct1|e] eqn:Hrun1; [|vm_compute in Hrun1; discriminate Hrun1].
  destruct (@_parse_stream_map Demo.collaborators "itag=6")
    as [dct2|e] eqn:Hrun2; [|vm_compute in Hrun2; discriminate Hrun2].
  destruct (@parse_stream_map_concat Demo.collaborators
              "itag=5&url=a" "itag=6" dct1 dct2 Hrun1 Hrun2)
    as (dct & Hrun & Hfields).
  exists dct. split; [exact Hrun|].
  rewrite Hfields.
  injection Hrun1 as <-. injection Hrun2 as <-. vm_compute. reflexivity.
Defined.

(** ** More on the bracket scanner and [_get_json_data] *)

Section ScannerMore.

Context {collab : Collaborators}.

Lemma is_brace_false (c : ascii) :
  is_brace c = false -> c <> "{"%char /\ c <> "}"%char.
Proof.
  unfold is_brace. intros Hc. apply orb_false_iff in Hc as [Hopen Hclose].
  now apply Ascii.eqb_neq in Hopen, Hclose.
Qed.

Lemma is_brace_true (c : ascii) :
  is_brace c = true -> c = "{"%char \/ c = "}"%char.
Proof.
  unfold is_brace. intros Hc. apply orb_true_iff in Hc as [Hc|Hc];
    apply Ascii.eqb_eq in Hc; tauto.
Qed.

Lemma drop_app_length (a b : string) :
  Text.drop (String.length a) (a +:+ b) = b.
Proof.
  induction a as [|c a IH]; [reflexivity|].
  rewrite string_app_cons. cbn [String.length Text.drop]. exact IH.
Qed.

(** Text without braces is passed over, whatever the stack. *)
Lemma scan_brackets_brace_free (pre : string) :
  brace_free pre = true ->
  forall (brackets : list ascii) (idx : nat) (rest : string),
    scan_brackets brackets idx (pre +:+ rest)
    = scan_brackets brackets (idx + String.length pre) rest.
Proof.
  induction pre as [|c pre IH]; intros Hfree brackets idx rest.
  - rewrite string_app_nil. cbn [String.length]. now rewrite Nat.add_0_r.
  - cbn [brace_free] in Hfree. apply andb_true_iff in Hfree as [Hc Hfree].
    apply negb_true_iff, is_brace_false in Hc as [Hopen Hclose].
    rewrite string_app_cons, scan_brackets_other by assumption.
    rewrite IH by assumption. cbn [String.length]. f_equal. lia.
Qed.

(** The offset of the first object of a text that has no brace before
    it. *)
Lemma json_offset_first_object (pre body trailing : string) :
  brace_free pre = true ->
  balanced body ->
  _get_json_offset (pre +:+ String "{" (body +:+ "}") +:+ trailing)
  = Returns (String.length pre + String.length (String "{" (body +:+ "}"))).
Proof.
  intros Hfree Hbal. unfold _get_json_offset.
  rewrite scan_brackets_brace_free by assumption.
  rewrite string_app_cons, scan_brackets_open, string_app_assoc.
  rewrite scan_brackets_balanced by (assumption || discriminate).
  rewrite string_app_cons, scan_brackets_close. cbn [length Nat.eqb].
  f_equal. cbn [String.length]. rewrite string_app_length.
  cbn [String.length]. lia.
Qed.

(** X3: text before the first brace is passed over.  When a text has
    no brace before a balanced brace expression, the scanner returns
    the end offset of that expression, counted from the start of the
    text. *)
Theorem json_offset_skips_leading_text (pre body trailing : string) :
  brace_free pre = true ->
  balanced body ->
  let object := String "{" (body +:+ "}") in
  _get_json_offset (pre +:+ object +:+ trailing)
  = Returns (String.length (pre +:+ object)) /\
  Text.take (String.length (pre +:+ object)) (pre +:+ object +:+ trailing)
  = (pre +:+ object)%string.
Proof.
  intros Hfree Hbal object. subst object. split.
  - rewrite json_offset_first_object by assumption.
    now rewrite string_app_length.
  - rewrite <- string_app_assoc. apply take_app_length.
Qed.

Lemma scan_brackets_no_pop_error (html : string) :
  forall (brackets : list ascii) (idx : nat),
    brackets <> [] -> scan_brackets brackets idx html <> Raises IndexError.
Proof.
  induction html as [|c html IH]; intros brackets idx Hne; [discriminate|].
  cbn [scan_brackets].
  destruct (Ascii.eqb c "{"); [now apply IH|].
  destruct (Ascii.eqb c "}"); [|now apply IH].
  destruct brackets as [|b [|b' brackets]]; [contradiction | discriminate |].
  cbn [length Nat.eqb]. now apply IH.
Qed.

(** X4: the scanner raises [IndexError], the error of popping from the
    empty list, exactly on the texts whose first brace is a closing
    one. *)
Theorem json_offset_pop_error (html : string) :
  _get_json_offset html = Raises IndexError
  <-> exists pre rest : string,
        html = (pre +:+ String "}" rest)%string /\ brace_free pre = true.
Proof.
  unfold _get_json_offset. split.
  - assert (Hscan : forall idx,
               scan_brackets [] idx html = Raises IndexError ->
               exists pre rest : string,
                 html = (pre +:+ String "}" rest)%string /\
                 brace_free pre = true).
    { induction html as [|c html IH]; intros idx Hrun; [discriminate|].
      cbn [scan_brackets] in Hrun.
      destruct (Ascii.eqb c "{") eqn:Hopen.
      - now apply scan_brackets_no_pop_error in Hrun.
      - destruct (Ascii.eqb c "}") eqn:Hclose.
        + apply Ascii.eqb_eq in Hclose. subst c.
          now exists EmptyString, html.
        + destruct (IH _ Hrun) as (pre & rest & -> & Hfree).
          exists (String c pre), rest. split; [reflexivity|].
          cbn [brace_free]. unfold is_brace. now rewrite Hopen, Hclose. }
    intros Hrun. apply (Hscan 0).
    destruct (scan_brackets [] 0 html); [discriminate | exact Hrun].
  - intros (pre & rest & -> & Hfree).
    now rewrite scan_brackets_brace_free.
Qed.

(** Where the loop of the scanner breaks. *)
Lemma scan_brackets_returns (html : string) :
  forall (brackets : list ascii) (idx i : nat),
    scan_brackets brackets idx html = Returns i ->
    exists k : nat,
      i = idx + k /\ k < String.length html /\
      String.get k html = Some "}"%char /\
      length brackets + count_char "{" (Text.take (S k) html)
      = count_char "}" (Text.take (S k) html) /\
      (brackets = [] -> 1 <= k).
Proof.
  induction html as [|c html IH]; intros brackets idx i Hrun; [discriminate|].
  cbn [scan_brackets] in Hrun.
  destruct (Ascii.eqb c "{") eqn:Hopen.
  - apply Ascii.eqb_eq in Hopen. subst c.
    destruct (IH _ _ _ Hrun) as (k & -> & Hlt & Hget & Hcount & _).
    exists (S k). cbn [String.length String.get Text.take count_char length] in *.
    cbn. repeat split; try lia; assumption.
  - destruct (Ascii.eqb c "}") eqn:Hclose.
    + apply Ascii.eqb_eq in Hclose. subst c.
      destruct brackets as [|b brackets]; [discriminate|].
      destruct brackets as [|b' brackets]; cbn [length Nat.eqb] in Hrun.
      * injection Hrun as <-. exists 0. cbn. repeat split; try lia.
        discriminate.
      * destruct (IH _ _ _ Hrun) as (k & -> & Hlt & Hget & Hcount & _).
        exists (S k).
        cbn [String.length String.get Text.take count_char length] in *.
        cbn. repeat split; try lia; try assumption.
    + destruct (IH _ _ _ Hrun) as (k & -> & Hlt & Hget & Hcount & _).
      exists (S k).
      cbn [String.length String.get Text.take count_char] in *.
      rewrite Hopen, Hclose. cbn. repeat split; try lia; assumption.
Qed.

(** What holds of an offset that the scanner returns. *)
Lemma json_offset_returns (html : string) (offset : nat) :
  _get_json_offset html = Returns offset ->
  2 <= offset <= String.length html /\
  String.get (offset - 1) html = Some "}"%char /\
  count_char "{" (Text.take offset html)
  = count_char "}" (Text.take offset html).
Proof.
  unfold _get_json_offset.
  destruct (scan_brackets [] 0 html) as [i|e] eqn:Hrun; [|discriminate].
  intros [= <-].
  destruct (scan_brackets_returns _ _ _ _ Hrun)
    as (k & -> & Hlt & Hget & Hcount & Hpos).
  specialize (Hpos eq_refl). cbn [length Nat.add] in *.
  replace (S k - 1) with k by lia.
  repeat split; try lia; assumption.
Qed.

(** X5: whenever the scanner returns an offset, the text up to that
    offset ends with a closing brace, has as many opening as closing
    braces, and is at least two characters long; the offset is within
    the text. *)
Theorem json_offset_bounds (html : string) (offset : nat) :
  _get_json_offset html = Returns offset ->
  2 <= offset <= String.length html /\
  String.get (offset - 1) html = Some "}"%char /\
  count_char "{" (Text.take offset html)
  = count_char "}" (Text.take offset html).
Proof. apply json_offset_returns. Qed.

Lemma scan_brackets_same_braces (s t : string) :
  same_braces s t ->
  forall (brackets : list ascii) (idx : nat),
    scan_brackets brackets idx s = scan_brackets brackets idx t.
Proof.
  induction 1 as [|c s t Hc Hst IH|c d s t Hc Hd Hst IH]; intros brackets idx.
  - reflexivity.
  - cbn [scan_brackets]. rewrite !IH.
    destruct (Ascii.eqb c "{"); [reflexivity|].
    destruct (Ascii.eqb c "}"); [|reflexivity].
    destruct brackets as [|b brackets]; [reflexivity|].
    now rewrite IH.
  - apply is_brace_false in Hc as [Hc1 Hc2].
    apply is_brace_false in Hd as [Hd1 Hd2].
    rewrite !scan_brackets_other by assumption. apply IH.
Qed.

(** X7: the scanner looks at braces only.  Two texts with the same
    braces at the same offsets get the same answer, whatever their
    other characters are: quotes do not protect a brace inside a JSON
    string from being counted. *)
Theorem json_offset_depends_on_braces_only (s t : string) :
  same_braces s t -> _get_json_offset s = _get_json_offset t.
Proof.
  intros Hsame. unfold _get_json_offset.
  now rewrite (scan_brackets_same_braces s t Hsame).
Qed.

(** X6: what [_get_json_data] can do.  It never raises the "unable to
    extract json" error, the offset it tests being at least two; it
    either fails in the scanner without any call, or makes one call of
    [json.loads], on a text that ends with a closing brace and has as
    many opening as closing braces, and returns its result or raises
    its [ValueError]. *)
Theorem get_json_data_outcomes (html : string) (w : World) :
  (_get_json_data html w).1 <> Raises (PytubeError UnableToExtractJson) /\
  (((_get_json_data html w).1 = Raises IndexError \/
    (_get_json_data html w).1
    = Raises (PytubeError UnableToDetermineJsonOffset)) /\
   (_get_json_data html w).2 = w
   \/
   exists text : string,
     (_get_json_data html w).2
     = {| self := self w; calls := calls w ++ [JsonLoads text] |} /\
     (_get_json_data html w).1
     = match json_loads text with
       | Some json_object => Returns json_object
       | None => Raises ValueError
       end /\
     count_char "{" text = count_char "}" text /\
     exists before : string, text = (before +:+ "}")%string).
Proof.
  unfold _get_json_data.
  set (page := Text.drop _ html).
  unfold bind, lift.
  destruct (_get_json_offset page) as [offset|e] eqn:Hscan.
  - destruct (json_offset_returns _ _ Hscan) as (Hrange & Hget & Hcount).
    replace (offset =? 0)%nat with false
      by (symmetry; apply Nat.eqb_neq; lia).
    unfold log_call. cbn [fst snd].
    split.
    + destruct (json_loads (Text.take offset page)); discriminate.
    + right. exists (Text.take offset page). split; [|split; [|split]].
      * now destruct (json_loads (Text.take offset page)).
      * now destruct (json_loads (Text.take offset page)).
      * exact Hcount.
      * clear Hscan Hcount. revert page Hrange Hget.
        assert (Hend : forall (n : nat) (s : string),
                   n < String.length s ->
                   String.get n s = Some "}"%char ->
                   exists before, Text.take (S n) s = (before +:+ "}")%string).
        { induction n as [|n IH]; intros [|c s] Hlt Hget;
            cbn [String.length String.get] in *; try lia.
          - injection Hget as ->. now exists EmptyString.
          - destruct (IH s) as [before Hbefore]; [lia | assumption |].
            exists (String c before). cbn [Text.take] in *.
            now rewrite Hbefore. }
        intros page Hrange Hget.
        replace offset with (S (offset - 1)) by lia.
        apply Hend; [lia | assumption].
  - cbn [fst snd]. split.
    + unfold _get_json_offset in Hscan.
      destruct (scan_brackets [] 0 page) as [i|e'] eqn:Hrun; [discriminate|].
      injection Hscan as <-.
      intros [= ->].
      assert (Hnever : forall s brackets idx,
                 scan_brackets brackets idx s
                 <> Raises (PytubeError UnableToExtractJson)).
      { induction s as [|c s IH]; intros brackets idx; [discriminate|].
        cbn [scan_brackets].
        destruct (Ascii.eqb c "{"); [apply IH|].
        destruct (Ascii.eqb c "}"); [|apply IH].
        destruct brackets as [|b brackets]; [discriminate|].
        destruct (length brackets =? 0)%nat; [discriminate | apply IH]. }
      exact (Hnever _ _ _ Hrun).
    + left. split; [|reflexivity].
      unfold _get_json_offset in Hscan.
      destruct (scan_brackets [] 0 page) as [i|e'] eqn:Hrun; [discriminate|].
      injection Hscan as <-.
      assert (Hkinds : forall s brackets idx e0,
                 scan_brackets brackets idx s = Raises e0 ->
                 e0 = IndexError \/
                 e0 = PytubeError UnableToDetermineJsonOffset).
      { induction s as [|c s IH]; intros brackets idx e0 Hrun0;
          cbn [scan_brackets] in Hrun0.
        - injection Hrun0 as <-. now right.
        - destruct (Ascii.eqb c "{"); [now apply IH in Hrun0|].
          destruct (Ascii.eqb c "}"); [|now apply IH in Hrun0].
          destruct brackets as [|b brackets];
            [injection Hrun0 as <-; now left|].
          destruct (length brackets =? 0)%nat;
            [discriminate | now apply IH in Hrun0]. }
      destruct (Hkinds _ _ _ _ Hrun) as [-> | ->]; tauto.
Qed.

End ScannerMore.

Section JsonDataMore.

Context {collab : Collaborators}.

Lemma drop_add (a b : nat) (s : string) :
  Text.drop (a + b) s = Text.drop b (Text.drop a s).
Proof.
  revert s. induction a as [|a IH]; intros s; [reflexivity|].
  destruct s as [|c s]; cbn [Nat.add Text.drop]; [now destruct b | apply IH].
Qed.

(** [find] answers [-1] on a text in which the pattern does not occur. *)
Lemma find_no_occurrence (p s : string) :
  (forall a b : string, s <> (a +:+ p +:+ b)%string) -> Text.find p s = None.
Proof.
  induction s as [|c s IH]; intros Hnone; rewrite find_eq.
  - destruct (Text.startswith p "") eqn:Hstarts; [|reflexivity].
    apply startswith_drop in Hstarts. now destruct (Hnone "" (Text.drop (String.length p) "")).
  - destruct (Text.startswith p (String c s)) eqn:Hstarts.
    + apply startswith_drop in Hstarts.
      now destruct (Hnone "" (Text.drop (String.length p) (String c s))).
    + rewrite IH; [reflexivity|].
      intros a b ->. now destruct (Hnone (String c a) b).
Qed.

(** The call of [json.loads] on the text [text], and its outcome. *)
Lemma get_json_data_loads (html text trailing : string) (start : nat)
  (w : World) :
  match Text.find "ytplayer.config = " html with
  | Some i => i + 18
  | None => 17
  end = start ->
  Text.drop start html = (text +:+ trailing)%string ->
  _get_json_offset (text +:+ trailing) = Returns (String.length text) ->
  text <> "" ->
  _get_json_data html w
  = (match json_loads text with
     | Some json_object => Returns json_object
     | None => Raises ValueError
     end,
     {| self := self w; calls := calls w ++ [JsonLoads text] |}).
Proof.
  intros Hstart Hdrop Hscan Hne. unfold _get_json_data.
  rewrite Hstart, Hdrop. unfold bind, lift. rewrite Hscan.
  destruct text as [|c text]; [contradiction|].
  cbn [String.length Nat.eqb].
  change (S (String.length text)) with (String.length (String c text)).
  rewrite take_app_length. unfold log_call.
  now destruct (json_loads (String c text)).
Qed.

(** X8: on a page whose first occurrence of the marker
    ["ytplayer.config = "] is followed by a balanced brace expression,
    [_get_json_data] hands exactly that expression to [json.loads],
    once, and returns what it returns ([ValueError] when it rejects
    the text). *)
Theorem get_json_data_after_marker (pre body trailing : string) (w : World) :
  let object := String "{" (body +:+ "}") in
  let html := (pre +:+ "ytplayer.config = " +:+ object +:+ trailing)%string in
  Text.find "ytplayer.config = " html = Some (String.length pre) ->
  balanced body ->
  _get_json_data html w
  = (match json_loads object with
     | Some json_object => Returns json_object
     | None => Raises ValueError
     end,
     {| self := self w; calls := calls w ++ [JsonLoads object] |}).
Proof.
  intros object html Hfind Hbal.
  apply (get_json_data_loads html object trailing (String.length pre + 18)).
  - now rewrite Hfind.
  - subst html. rewrite drop_add, drop_app_length. reflexivity.
  - subst object.
    pose proof (json_offset_first_object "" body trailing eq_refl Hbal) as Hscan.
    rewrite string_app_nil in Hscan. exact Hscan.
  - discriminate.
Qed.

(** X9: a page without the marker is not rejected for that.  [find]
    answers [-1], the scan starts at offset 17, and when the first
    brace after it opens a balanced brace expression, [json.loads] is
    given the text from offset 17 to the end of that expression. *)
Theorem get_json_data_without_marker (skipped pre body trailing : string)
  (w : World) :
  let object := String "{" (body +:+ "}") in
  let html := (skipped +:+ pre +:+ object +:+ trailing)%string in
  (forall a b : string, html <> (a +:+ "ytplayer.config = " +:+ b)%string) ->
  String.length skipped = 17 ->
  brace_free pre = true ->
  balanced body ->
  _get_json_data html w
  = (match json_loads (pre +:+ object) with
     | Some json_object => Returns json_object
     | None => Raises ValueError
     end,
     {| self := self w; calls := calls w ++ [JsonLoads (pre +:+ object)] |}).
Proof.
  intros object html Hnone Hskipped Hfree Hbal.
  apply (get_json_data_loads html (pre +:+ object) trailing 17).
  - now rewrite (find_no_occurrence _ _ Hnone).
  - subst html. rewrite <- Hskipped, drop_app_length.
    now rewrite string_app_assoc.
  - subst object. rewrite string_app_assoc, string_app_length.
    now apply json_offset_first_object.
  - subst object. destruct pre; discriminate.
Qed.

End JsonDataMore.

(** ** More on itag extraction *)

Section ItagMore.

Lemma span_digit_head (d : ascii) (after : string) :
  Text.is_digit d = true ->
  exists ds rest, Text.span Text.is_digit (String d after) = (String d ds, rest).
Proof.
  intros Hd. cbn [Text.span]. rewrite Hd.
  destruct (Text.span Text.is_digit after) as [ds rest]. eauto.
Qed.

(** A match of the pattern at the start of a text is an [itag=]
    followed by a digit. *)
Lemma match_itag_some (s : string) :
  (exists digits, match_itag s = Some digits)
  <-> exists (d : ascii) (after : string),
        s = ("itag=" +:+ String d after)%string /\ Text.is_digit d = true.
Proof.
  unfold match_itag. split.
  - intros [digits Hmatch].
    destruct (Text.startswith "itag=" s) eqn:Hstarts; [|discriminate].
    apply startswith_drop in Hstarts. cbn [String.length] in Hstarts.
    destruct (Text.drop 5 s) as [|d after]; [discriminate Hmatch|].
    exists d, after. split; [exact Hstarts|].
    cbn [Text.span] in Hmatch.
    destruct (Text.is_digit d); [reflexivity | discriminate Hmatch].
  - intros (d & after & -> & Hd).
    rewrite startswith_app.
    change (Text.drop 5 ("itag=" +:+ String d after)) with (String d after).
    destruct (span_digit_head d after Hd) as (ds & rest & ->). eauto.
Qed.

Lemma has_itag_token_cons (c : ascii) (s : string) :
  has_itag_token (String c s)
  <-> (exists digits, match_itag (String c s) = Some digits)
      \/ has_itag_token s.
Proof.
  rewrite match_itag_some. unfold has_itag_token. split.
  - intros (before & d & after & Heq & Hd).
    destruct before as [|b before].
    + left. rewrite string_app_nil in Heq. eauto.
    + right. rewrite string_app_cons in Heq. injection Heq as _ ->. eauto.
  - intros [(d & after & Heq & Hd) | (before & d & after & -> & Hd)].
    + exists EmptyString, d, after. now rewrite string_app_nil.
    + exists (String c before), d, after. now rewrite string_app_cons.
Qed.

Lemma itag_tokens_nil (s : string) :
  itag_tokens s = [] <-> ~ has_itag_token s.
Proof.
  induction s as [|c s IH].
  - split; [|reflexivity]. intros _ (before & d & after & Heq & _).
    destruct before; discriminate Heq.
  - rewrite has_itag_token_cons. cbn [itag_tokens].
    destruct (match_itag (String c s)) as [digits|].
    + split; [discriminate|]. intros Hno. exfalso. apply Hno. eauto.
    + rewrite IH. split.
      * intros Hno [[digits Hsome]|Htoken]; [discriminate | contradiction].
      * tauto.
Qed.

(** The tokens of a text include, at their end, the tokens of each of
    its suffixes. *)
Lemma itag_tokens_app (a s : string) :
  exists l : list string, itag_tokens (a +:+ s) = l ++ itag_tokens s.
Proof.
  induction a as [|c a [l IH]]; [now exists []|].
  rewrite string_app_cons. cbn [itag_tokens]. rewrite IH.
  destruct (match_itag _) as [digits|]; [now exists (digits :: l) | now exists l].
Qed.

Lemma itag_tokens_at_token (d : ascii) (after : string) :
  Text.is_digit d = true ->
  exists digits, 
    itag_tokens ("itag=" +:+ String d after)
    = digits :: itag_tokens ("tag=" +:+ String d after).
Proof.
  intros Hd.
  destruct (proj2 (match_itag_some ("itag=" +:+ String d after)))
    as [digits Hmatch]; [eauto|].
  exists digits.
  change ("itag=" +:+ String d after)%string
    with (String "i" ("tag=" +:+ String d after)) in *.
  cbn [itag_tokens]. now rewrite Hmatch.
Qed.

(** X10: the "no itag found" error is raised exactly for the urls in
    which no [itag=] followed by a digit occurs. *)
Theorem no_itag_found_iff (video_url : string) :
  _get_quality_profile_from_url video_url = Raises (PytubeError NoItagFound)
  <-> ~ has_itag_token video_url.
Proof.
  rewrite <- itag_tokens_nil, <- findall_itag_tokens.
  unfold _get_quality_profile_from_url.
  destruct (findall_itag video_url) as [|digits [|digits' more]].
  - tauto.
  - split; [|discriminate].
    destruct (YT_QUALITY_PROFILES !! Text.int digits) as [[|field row]|];
      discriminate.
  - split; discriminate.
Qed.

(** X11: a url in which [itag=] followed by a digit occurs twice is
    rejected with the "multiple itags found" error, wherever the two
    occurrences are: the pattern is not tied to the boundaries of the
    url's parameters. *)
Theorem multiple_itags_found (a b c : string) (d1 d2 : ascii) :
  Text.is_digit d1 = true ->
  Text.is_digit d2 = true ->
  _get_quality_profile_from_url
    (a +:+ "itag=" +:+ String d1 (b +:+ "itag=" +:+ String d2 c))
  = Raises (PytubeError MultipleItagsFound).
Proof.
  intros Hd1 Hd2. unfold _get_quality_profile_from_url.
  rewrite findall_itag_tokens.
  destruct (itag_tokens_app a
              ("itag=" +:+ String d1 (b +:+ "itag=" +:+ String d2 c)))
    as [l1 ->].
  destruct (itag_tokens_at_token d1 (b +:+ "itag=" +:+ String d2 c) Hd1)
    as [t1 ->].
  destruct (itag_tokens_app ("tag=" +:+ String d1 b) ("itag=" +:+ String d2 c))
    as [l2 Hl2].
  change ("tag=" +:+ String d1 (b +:+ "itag=" +:+ String d2 c))%string
    with ("tag=" +:+ (String d1 b +:+ ("itag=" +:+ String d2 c)))%string.
  rewrite <- string_app_assoc, Hl2.
  destruct (itag_tokens_at_token d2 c Hd2) as [t2 ->].
  destruct l1 as [|x [|y l1]]; cbn [app]; try reflexivity.
  destruct l2 as [|y l2]; reflexivity.
Qed.

Lemma quality_profile_rows_length (itag : Z) (row : list string) :
  YT_QUALITY_PROFILES !! itag = Some row -> length row = 7.
Proof.
  assert (Hall : map_Forall (fun _ r => length r = 7) YT_QUALITY_PROFILES).
  { apply (bool_decide_unpack _). vm_compute. exact I. }
  intros Hrow. exact (Hall itag row Hrow).
Qed.

(** The row behind a returned quality profile. *)
Lemma profile_of_classified (video_url : string) (itag : Z)
  (quality_profile : kwargs) :
  _get_quality_profile_from_url video_url
  = Returns (itag, Some quality_profile) ->
  exists e r vc p vb ac ab : string,
    YT_QUALITY_PROFILES !! itag = Some [e; r; vc; p; vb; ac; ab] /\
    quality_profile = combine YT_QUALITY_PROFILE_KEYS [e; r; vc; p; vb; ac; ab] /\
    forall u fn : string,
      Video_new u fn quality_profile
      = mkVideo u fn (Some e) (Some r) (Some vc) (Some p) (Some vb) (Some ac)
          (Some ab).
Proof.
  unfold _get_quality_profile_from_url.
  destruct (findall_itag video_url) as [|digits [|digits' more]];
    try discriminate.
  destruct (YT_QUALITY_PROFILES !! Text.int digits) as [row|] eqn:Hrow;
    [|discriminate].
  pose proof (quality_profile_rows_length _ _ Hrow) as Hlen.
  destruct row as [|e [|r [|vc [|p [|vb [|ac [|ab [|extra row]]]]]]]];
    try discriminate Hlen.
  intros [= <- <-]. exists e, r, vc, p, vb, ac, ab.
  split; [exact Hrow|]. split; reflexivity.
Qed.

(** X12: a candidate that is classified gets all seven attributes.
    Every row of the table has seven fields, one for each key, so the
    video made from the returned profile has the row's fields as its
    attributes, in the order of the keys. *)
Theorem classified_video_attributes (video_url : string) (itag : Z)
  (quality_profile : kwargs) :
  _get_quality_profile_from_url video_url
  = Returns (itag, Some quality_profile) ->
  exists e r vc p vb ac ab : string,
    YT_QUALITY_PROFILES !! itag = Some [e; r; vc; p; vb; ac; ab] /\
    quality_profile = combine YT_QUALITY_PROFILE_KEYS [e; r; vc; p; vb; ac; ab] /\
    forall u fn : string,
      Video_new u fn quality_profile
      = mkVideo u fn (Some e) (Some r) (Some vc) (Some p) (Some vb) (Some ac)
          (Some ab).
Proof. apply profile_of_classified. Qed.

End ItagMore.

(** ** [set_filename], the [filename] property and [filter] *)

Section FilenameMore.

Context {collab : Collaborators}.

Lemma world_eta (w : World) : {| self := self w; calls := calls w |} = w.
Proof. now destruct w. Qed.

Lemma set__filename_same (y : YouTube) (fn : option string) :
  _filename y = fn -> set__filename fn y = y.
Proof. intros <-. now destruct y. Qed.

(** The [filename] property in closed form. *)
Lemma get_filename_eq (w : World) :
  get_filename w
  = match current_filename (self w) with
    | Returns fn =>
        (Returns fn,
         {| self := set__filename (Some fn) (self w); calls := calls w |})
    | Raises e => (Raises e, w)
    end.
Proof.
  unfold get_filename, bind, get_self, current_filename.
  destruct (truthy (_filename (self w))) eqn:Htruthy; cbn [negb].
  - destruct (_filename (self w)) as [fn|] eqn:Hfn; [|discriminate].
    cbn [ret default from_option id].
    now rewrite (set__filename_same _ _ Hfn), world_eta.
  - now destruct (title (self w)).
Qed.

Lemma keeps_with_filename (ext res prof : option string) (fn : string)
  (v : Video) :
  keeps ext res prof (with_filename fn v) = keeps ext res prof v.
Proof. reflexivity. Qed.

Lemma filter_with_filename (ext res prof : option string) (fn : string)
  (l : list Video) :
  List.filter (keeps ext res prof) (with_filename fn <$> l)
  = with_filename fn <$> List.filter (keeps ext res prof) l.
Proof.
  induction l as [|v l IH]; [reflexivity|].
  rewrite fmap_cons. cbn [List.filter]. rewrite keeps_with_filename, IH.
  now destruct (keeps ext res prof v).
Qed.

Lemma set__videos_same (y : YouTube) (l : list Video) :
  _videos y = l -> set__videos l y = y.
Proof. intros <-. now destruct y. Qed.

(** [set_filename] in closed form. *)
Lemma set_filename_eq (fn : string) (w : World) :
  set_filename fn w
  = (Returns true,
     {| self := set__videos (with_filename fn <$> _videos (self w))
                  (set__filename (Some fn) (self w));
        calls := calls w |}).
Proof.
  unfold set_filename, bind, modify_self, get_self, get_videos.
  cbn [self calls set__filename _videos].
  destruct (_videos (self w)) as [|v l] eqn:Hvideos.
  - cbn [is_empty_list negb ret fmap list_fmap].
    now rewrite set__videos_same.
  - cbn [is_empty_list negb self calls set__filename _videos].
    now rewrite Hvideos.
Qed.

(** X13: [set_filename] returns [True] and changes filenames only.
    The videos of the collection are the same, in the same order, each
    with the new filename and its other attributes as before; so
    [filter], with any criteria, selects the same videos after it as
    before it.  No call is made, and the url, the title and the cached
    script stay as they were. *)
Theorem set_filename_changes_filenames_only (fn : string) (w : World) :
  (set_filename fn w).1 = Returns true /\
  _filename (self (set_filename fn w).2) = Some fn /\
  get_videos (self (set_filename fn w).2)
  = with_filename fn <$> get_videos (self w) /\
  (forall ext res prof : option string,
      filter_videos (self (set_filename fn w).2) ext res prof
      = with_filename fn <$> filter_videos (self w) ext res prof) /\
  calls (set_filename fn w).2 = calls w /\
  _video_url (self (set_filename fn w).2) = _video_url (self w) /\
  title (self (set_filename fn w).2) = title (self w) /\
  _js_code (self (set_filename fn w).2) = _js_code (self w).
Proof.
  rewrite set_filename_eq. cbn [fst snd self calls].
  repeat split.
  intros ext res prof. unfold filter_videos. cbn [_videos set__videos].
  apply filter_with_filename.
Qed.

(** X14: the [filename] property.  Reading it twice gives the same
    outcome and leaves the session as the first reading left it.
    After [set_filename] with a non-empty name it is that name.  After
    [set_filename] with the empty name, which counts as none, it is the
    name made from the title; on a session whose title was never
    assigned (no [from_url] yet) reading it then raises
    [AttributeError]. *)
Theorem filename_property (w : World) :
  get_filename (get_filename w).2 = get_filename w /\
  (forall fn : string,
      fn <> "" -> (get_filename (set_filename fn w).2).1 = Returns fn) /\
  (get_filename (set_filename "" w).2).1
  = match title (self w) with
    | Assigned t => Returns (safe_filename t)
    | Unset => Raises AttributeError
    end.
Proof.
  split; [|split].
  - rewrite (get_filename_eq w).
    destruct (current_filename (self w)) as [fn|e] eqn:Hname; cbn [snd];
      rewrite get_filename_eq; [|now rewrite Hname].
    assert (Hagain : current_filename (set__filename (Some fn) (self w))
                     = Returns fn).
    { unfold current_filename in *.
      cbn [_filename set__filename title truthy default from_option id].
      destruct (String.eqb_spec fn "") as [->|Hne]; cbn [negb]; [|reflexivity].
      destruct (truthy (_filename (self w))) eqn:Htruthy; [|exact Hname].
      destruct (_filename (self w)) as [fn'|]; [|discriminate].
      cbn [truthy default from_option id] in *.
      injection Hname as ->. discriminate Htruthy. }
    cbn [self calls]. rewrite Hagain. reflexivity.
  - intros fn Hne. rewrite get_filename_eq, set_filename_eq.
    cbn [snd self]. unfold current_filename.
    cbn [_filename set__videos set__filename truthy default from_option id].
    apply String.eqb_neq in Hne. now rewrite Hne.
  - rewrite get_filename_eq, set_filename_eq. cbn [snd self].
    unfold current_filename.
    cbn [_filename title set__videos set__filename truthy String.eqb negb].
    now destruct (title (self w)).
Qed.

End FilenameMore.

Section FilterMore.

Lemma keeps_conjunction (ext res prof : option string) (v : Video) :
  keeps ext res prof v
  = keeps ext None None v && keeps None res None v && keeps None None prof v.
Proof.
  unfold keeps. cbn [rejects truthy andb].
  destruct (rejects ext (extension v)), (rejects res (resolution v)),
    (rejects prof (profile v)); reflexivity.
Qed.

Lemma filter_filter {A : Type} (p q : A -> bool) (l : list A) :
  List.filter q (List.filter p l) = List.filter (fun a => p a && q a) l.
Proof.
  induction l as [|a l IH]; [reflexivity|].
  cbn [List.filter]. destruct (p a); cbn [List.filter andb]; now rewrite IH.
Qed.

Lemma filter_sublist {A : Type} (p : A -> bool) (l : list A) :
  sublist (List.filter p l) l.
Proof.
  induction l as [|a l IH]; [constructor|].
  cbn [List.filter]. destruct (p a); now constructor.
Qed.

(** X15: [filter] selects in collection order, and its criteria work
    one after the other: filtering by extension, resolution and
    profile at once gives the videos that filtering by the extension,
    then by the resolution, then by the profile gives.  A criterion
    that is the empty string selects like one that is not given, and
    without criteria all videos are returned. *)
Theorem filter_videos_composes (y : YouTube) (ext res prof : option string) :
  sublist (filter_videos y ext res prof) (get_videos y) /\
  filter_videos y ext res prof
  = filter_videos
      (set__videos
         (filter_videos (set__videos (filter_videos y ext None None) y)
            None res None) y)
      None None prof /\
  filter_videos y (Some "") res prof = filter_videos y None res prof /\
  filter_videos y None None None = get_videos y.
Proof.
  unfold filter_videos, get_videos. cbn [_videos set__videos].
  split; [apply filter_sublist|]. split; [|split].
  - rewrite !filter_filter. apply filter_ext. intros v.
    rewrite (keeps_conjunction ext res prof v).
    now destruct (keeps ext None None v), (keeps None res None v).
  - reflexivity.
  - induction (_videos y) as [|v l IH]; [reflexivity|].
    cbn [List.filter keeps rejects truthy andb]. now rewrite IH.
Qed.

End FilterMore.

(** ** More on the cipher and the loop of [from_url] *)

Section CipherMore.

Context {collab : Collaborators}.

Lemma search_cipher_name_none (code : string) :
  (forall a b : string, code <> (a +:+ ".sig||" +:+ b)%string) ->
  search_cipher_name code = None.
Proof.
  induction code as [|c code IH]; intros Hnone; [reflexivity|].
  cbn [search_cipher_name].
  assert (Hhere : match_cipher_name (String c code) = None).
  { unfold match_cipher_name.
    destruct (Text.startswith ".sig||" (String c code)) eqn:Hstarts;
      [|reflexivity].
    apply startswith_drop in Hstarts.
    now destruct (Hnone "" (Text.drop (String.length ".sig||") (String c code))). }
  rewrite Hhere. apply IH. intros a b ->.
  now destruct (Hnone (String c a) b).
Qed.

(** X16: a script in which the text [.sig||] does not occur has no
    cipher entry point.  The resolution that fetches it raises
    [CipherError] without consulting the interpreter, and still stores
    it.  When the script is not empty, every later resolution raises
    [CipherError] from the stored text, without a call or any change
    to the session; when it is empty, the cache test takes it for no
    script and the next resolution fetches again. *)
Theorem cipher_without_entry_point (code : string) :
  (forall a b : string, code <> (a +:+ ".sig||" +:+ b)%string) ->
  forall (signature js_url : string) (w : World),
    (urlopen js_url = Some code ->
     truthy (_js_code (self w)) = false ->
     _get_cipher signature js_url w
     = (Raises CipherError,
        {| self := set__js_code (Some code) (self w);
           calls := calls w ++ [Urlopen js_url] |})) /\
    (_js_code (self w) = Some code ->
     code <> "" ->
     _get_cipher signature js_url w = (Raises CipherError, w)) /\
    (_js_code (self w) = Some code ->
     code = "" ->
     calls (_get_cipher signature js_url w).2
     = calls w ++ [Urlopen js_url]).
Proof.
  intros Hnone signature js_url w.
  assert (Hfail : cipher_with code signature = Raises CipherError).
  { unfold cipher_with. now rewrite (search_cipher_name_none _ Hnone). }
  split; [|split].
  - intros Hopen Hfalsy.
    now rewrite (get_cipher_fetches _ _ _ _ Hfalsy Hopen), Hfail.
  - intros Hcached Hne.
    now rewrite (get_cipher_cached _ _ _ _ Hcached Hne), Hfail.
  - intros Hcached ->.
    assert (Hfalsy : truthy (_js_code (self w)) = false)
      by now rewrite Hcached.
    destruct (urlopen js_url) as [text|] eqn:Hopen.
    + now rewrite (get_cipher_fetches _ _ _ _ Hfalsy Hopen).
    + unfold _get_cipher, bind, get_self, log_call. rewrite Hfalsy.
      cbn [negb self calls]. now rewrite Hopen.
Qed.

(** The three ways a resolution can go. *)
Lemma get_cipher_cases (signature js_url : string) (w : World) :
  (truthy (_js_code (self w)) = true /\
   (_get_cipher signature js_url w).2 = w)
  \/
  (truthy (_js_code (self w)) = false /\
   (_get_cipher signature js_url w).1 = Raises (PytubeError UnableToOpenUrl) /\
   (_get_cipher signature js_url w).2
   = {| self := self w; calls := calls w ++ [Urlopen js_url] |})
  \/
  (truthy (_js_code (self w)) = false /\
   exists text : string,
     (_get_cipher signature js_url w).2
     = {| self := set__js_code (Some text) (self w);
          calls := calls w ++ [Urlopen js_url] |} /\
     ((_get_cipher signature js_url w).1 = Raises CipherError \/
      text <> "")).
Proof.
  destruct (truthy (_js_code (self w))) eqn:Htruthy.
  - left. split; [reflexivity|].
    destruct (_js_code (self w)) as [code|] eqn:Hcode; [|discriminate].
    cbn [truthy] in Htruthy. apply negb_true_iff, String.eqb_neq in Htruthy.
    now rewrite (get_cipher_cached _ _ _ _ Hcode Htruthy).
  - right. destruct (urlopen js_url) as [text|] eqn:Hopen.
    + right. split; [reflexivity|]. exists text.
      rewrite (get_cipher_fetches _ _ _ _ Htruthy Hopen). cbn [fst snd].
      split; [reflexivity|].
      destruct text as [|c text]; [now left | now right].
    + left. split; [reflexivity|].
      unfold _get_cipher, bind, get_self, log_call. rewrite Htruthy.
      cbn [negb self calls]. rewrite Hopen. now split.
Qed.

End CipherMore.

Section LoopMore.

Context {collab : Collaborators}.

Lemma classified_true (u : string) :
  classified u = true ->
  exists (itag : Z) (kw : kwargs),
    _get_quality_profile_from_url u = Returns (itag, Some kw) /\
    is_empty_kwargs kw = false /\
    forall u' fn : string, has_all_attributes (Video_new u' fn kw).
Proof.
  unfold classified.
  destruct (_get_quality_profile_from_url u) as [[itag [kw|]]|e] eqn:Hqp;
    try discriminate.
  intros Hne. apply negb_true_iff in Hne. exists itag, kw.
  split; [reflexivity|]. split; [exact Hne|].
  destruct (profile_of_classified _ _ _ Hqp)
    as (e & r & vc & p & vb & ac & ab & _ & _ & Hvideo).
  intros u' fn. rewrite Hvideo. unfold has_all_attributes. cbn.
  repeat split; eauto.
Qed.

Lemma quality_profile_raises (u : string) (e : exn) :
  _get_quality_profile_from_url u = Raises e ->
  exists msg, e = PytubeError msg.
Proof.
  unfold _get_quality_profile_from_url.
  destruct (findall_itag u) as [|digits [|digits' more]].
  - intros [= <-]. eauto.
  - destruct (YT_QUALITY_PROFILES !! Text.int digits) as [[|field row]|];
      discriminate.
  - intros [= <-]. eauto.
Qed.

(** [self._add_video(url, self.filename, **profile)] in closed form. *)
Lemma add_video_eq (u : string) (kw : kwargs) (w : World) :
  bind get_filename (fun fn => _add_video u fn kw) w
  = match current_filename (self w) with
    | Returns fn => (Returns tt, added u fn kw w)
    | Raises e => (Raises e, w)
    end.
Proof.
  unfold bind at 1. rewrite get_filename_eq.
  destruct (current_filename (self w)) as [fn|e]; [|reflexivity].
  unfold _add_video, bind, modify_self, added. reflexivity.
Qed.

Lemma bind_bind_ret {A B C : Type} (m : M A) (f : A -> B) (k : B -> M C)
  (w : World) :
  bind (bind m (fun a => ret (f a))) k w
  = match m w with
    | (Returns a, w1) => k (f a) w1
    | (Raises e, w1) => (Raises e, w1)
    end.
Proof. unfold bind. now destruct (m w) as [[a|e] w1]. Qed.

(** What one pass of the loop of [from_url] does: nothing, for a
    candidate that is not classified (which may also end the loop with
    its exception); for a classified one, an exception before any
    effect, an exception after a cipher resolution, or one video added,
    after a cipher resolution when the url has no signature. *)
Lemma from_url_body_cases (stream_map : gmap string (list string))
  (js_url : string) (idx : nat) (u : string) (w : World) :
  (classified u = false /\
   (from_url_body stream_map js_url (idx, u) w).2 = w)
  \/
  (classified u = true /\
   is_raise (from_url_body stream_map js_url (idx, u) w).1 = true /\
   (from_url_body stream_map js_url (idx, u) w).2 = w)
  \/
  (classified u = true /\
   Text.contains "signature=" u = false /\
   exists s : string,
     is_raise (from_url_body stream_map js_url (idx, u) w).1 = true /\
     (from_url_body stream_map js_url (idx, u) w).2
     = (_get_cipher s js_url w).2)
  \/
  (classified u = true /\
   exists (kw : kwargs) (u' fn : string) (w1 : World),
     from_url_body stream_map js_url (idx, u) w
     = (Returns tt, added u' fn kw w1) /\
     current_filename (self w1) = Returns fn /\
     has_all_attributes (Video_new u' fn kw) /\
     (w1 = w \/
      Text.contains "signature=" u = false /\
      exists s : string,
        w1 = (_get_cipher s js_url w).2 /\
        is_raise (_get_cipher s js_url w).1 = false)).
Proof.
  destruct (classified u) eqn:Hclass.
  - right. destruct (classified_true _ Hclass) as (itag & kw & Hqp & Hne & Hattrs).
    unfold from_url_body. rewrite Hqp, Hne.
    destruct (Text.contains "signature=" u) eqn:Hsigned; cbn [negb].
    + change ((do u0 <- ret u ;; do fn <- get_filename ;;
                _add_video u0 fn kw) w)
        with (bind get_filename (fun fn => _add_video u fn kw) w).
      rewrite add_video_eq.
      destruct (current_filename (self w)) as [fn|e] eqn:Hname.
      * right. right. split; [reflexivity|]. exists kw, u, fn, w.
        split; [reflexivity|]. split; [exact Hname|].
        split; [apply Hattrs | now left].
      * left. now repeat split.
    + destruct (stream_map !! "s") as [sigs|];
        [|left; now repeat split].
      destruct (sigs !! idx) as [s|]; [|left; now repeat split].
      right. rewrite bind_bind_ret.
      destruct (_get_cipher s js_url w) as [[signature|e] w1] eqn:Hcipher.
      * rewrite add_video_eq.
        destruct (current_filename (self w1)) as [fn|e] eqn:Hname.
        -- right. split; [reflexivity|].
           exists kw, (u +:+ "&signature=" +:+ signature)%string, fn, w1.
           split; [reflexivity|]. split; [exact Hname|].
           split; [apply Hattrs|].
           right. split; [reflexivity|]. exists s. now rewrite Hcipher.
        -- left. split; [reflexivity|]. split; [reflexivity|]. exists s.
           now rewrite Hcipher.
      * left. split; [reflexivity|]. split; [reflexivity|]. exists s.
        now rewrite Hcipher.
  - left. split; [reflexivity|].
    unfold classified in Hclass. unfold from_url_body.
    destruct (_get_quality_profile_from_url u) as [[itag [kw|]]|e] eqn:Hqp.
    + apply negb_false_iff in Hclass. now rewrite Hclass.
    + reflexivity.
    + destruct (quality_profile_raises _ _ Hqp) as [msg ->]. reflexivity.
Qed.

(** [from_url] as the page stage followed by the loop. *)
Lemma from_url_eq (u : string) (w : World) :
  from_url u w
  = match get_video_data (prepared u w) with
    | (Raises e, w1) => (Raises e, w1)
    | (Returns (json_object, stream_map), w1) =>
        let w2 := {| self := set_title (cfg_title json_object) (self w1);
                     calls := calls w1 |} in
        match cfg_js json_object with
        | None => (Raises TypeError, w2)
        | Some js =>
            match stream_map !! "url" with
            | None => (Raises TypeError, w2)
            | Some video_urls =>
                for_each (from_url_body stream_map ("http:" +:+ js))
                  (enumerate video_urls) w2
            end
        end
    end.
Proof.
  unfold from_url, bind at 1 2 3, modify_self. cbn [self calls].
  fold (prepared u w).
  destruct (get_video_data (prepared u w)) as [[[json_object stream_map]|e] w1];
    [|reflexivity].
  unfold bind, modify_self.
  destruct (cfg_js json_object) as [js|]; [|reflexivity].
  now destruct (stream_map !! "url").
Qed.

(** The page stage: the session changes in its title only, and the
    calls are the fetch of the page, followed by one call of
    [json.loads] unless the stage fails before. *)
Lemma get_video_data_cases (u : string) (w : World) :
  _video_url (self w) = Some u ->
  self (get_video_data w).2 = set_title None (self w) /\
  (is_raise (get_video_data w).1 = true /\
   calls (get_video_data w).2 = calls w ++ [Urlopen u]
   \/
   exists text : string,
     calls (get_video_data w).2 = calls w ++ [Urlopen u; JsonLoads text]).
Proof.
  intros Hurl.
  unfold get_video_data, bind, modify_self, get_self, log_call, ret, raise.
  cbn [self calls set_title _video_url]. rewrite Hurl. cbn [self calls].
  destruct (urlopen u) as [html|]; [|split; [reflexivity | now left]].
  destruct (Text.contains "og:restrictions:age" html);
    [split; [reflexivity | now left]|].
  unfold _get_json_data, bind, lift, log_call, ret, raise.
  destruct (_get_json_offset _) as [offset|e];
    [|split; [reflexivity | now left]].
  destruct (offset =? 0)%nat; [split; [reflexivity | now left]|].
  cbn [self calls].
  match goal with
  | |- context [json_loads ?t] =>
      assert (Hcalls : (calls w ++ [Urlopen u]) ++ [JsonLoads t]
                       = calls w ++ [Urlopen u; JsonLoads t])
        by now rewrite <- app_assoc
  end.
  destruct (json_loads _) as [json_object|]; cbn [self calls fst snd];
    [|split; [reflexivity | right; eexists; exact Hcalls]].
  destruct (cfg_url_encoded_fmt_stream_map json_object) as [blob|];
    cbn [self calls fst snd];
    [|split; [reflexivity | right; eexists; exact Hcalls]].
  destruct (_parse_stream_map blob); cbn [self calls fst snd];
    (split; [reflexivity | right; eexists; exact Hcalls]).
Qed.

End LoopMore.

Section CallsMore.

Context {collab : Collaborators}.

Lemma truthy_nonempty (text : string) : text <> "" -> truthy (Some text) = true.
Proof. intros Hne. cbn [truthy]. apply String.eqb_neq in Hne. now rewrite Hne. Qed.

(** One pass of the loop makes no call, or fetches the script, once,
    for a url without a signature in a session without a script; the
    loop then ends or the script is cached. *)
Lemma from_url_body_calls (stream_map : gmap string (list string))
  (js_url : string) (idx : nat) (u : string) (w : World) :
  (calls (from_url_body stream_map js_url (idx, u) w).2 = calls w /\
   _js_code (self (from_url_body stream_map js_url (idx, u) w).2)
   = _js_code (self w))
  \/
  (truthy (_js_code (self w)) = false /\
   Text.contains "signature=" u = false /\
   calls (from_url_body stream_map js_url (idx, u) w).2
   = calls w ++ [Urlopen js_url] /\
   (is_raise (from_url_body stream_map js_url (idx, u) w).1 = true \/
    truthy (_js_code (self (from_url_body stream_map js_url (idx, u) w).2))
    = true)).
Proof.
  destruct (from_url_body_cases stream_map js_url idx u w)
    as [[_ ->] | [(_ & _ & ->) | [(_ & Hsigned & s & Hraise & ->)
       | (_ & kw & u' & fn & w1 & -> & _ & _ & Hw1)]]];
    try (left; now split).
  - destruct (get_cipher_cases s js_url w)
      as [[_ ->] | [(Hfalsy & _ & ->) | (Hfalsy & text & -> & _)]].
    + left. now split.
    + right. repeat split; try assumption. now left.
    + right. repeat split; try assumption. now left.
  - cbn [fst snd]. destruct Hw1 as [-> | (Hsigned & s & -> & Hok)].
    + left. now split.
    + destruct (get_cipher_cases s js_url w)
        as [[_ Hsame] | [(_ & Hfail & _) | (Hfalsy & text & Hfetched & Htext)]].
      * left. rewrite Hsame. now split.
      * rewrite Hfail in Hok. discriminate Hok.
      * right. rewrite Hfetched. repeat split; try assumption.
        right. destruct Htext as [Hfail | Hne].
        -- rewrite Hfail in Hok. discriminate Hok.
        -- now apply truthy_nonempty.
Qed.

Lemma for_each_step {A : Type} (body : A -> M unit) (x : A) (l : list A)
  (w : World) :
  (is_raise (body x w).1 = true /\ for_each body (x :: l) w = body x w)
  \/
  (is_raise (body x w).1 = false /\
   for_each body (x :: l) w = for_each body l (body x w).2).
Proof.
  rewrite for_each_cons. destruct (body x w) as [[[]|e] w1]; [right | left];
    now split.
Qed.

(** The loop makes no call, or fetches the script once. *)
Lemma from_url_loop_calls (stream_map : gmap string (list string))
  (js_url : string) (items : list (nat * string)) :
  forall w : World,
    (calls (for_each (from_url_body stream_map js_url) items w).2 = calls w /\
     _js_code (self (for_each (from_url_body stream_map js_url) items w).2)
     = _js_code (self w))
    \/
    (truthy (_js_code (self w)) = false /\
     calls (for_each (from_url_body stream_map js_url) items w).2
     = calls w ++ [Urlopen js_url] /\
     exists item : nat * string,
       item ∈ items /\ Text.contains "signature=" item.2 = false).
Proof.
  induction items as [|[idx u] items IH]; intros w; [left; now split|].
  destruct (for_each_step (from_url_body stream_map js_url) (idx, u) items w)
    as [[Hraise ->] | [Hok ->]];
    destruct (from_url_body_calls stream_map js_url idx u w)
      as [[Hcalls Hjs] | (Hfalsy & Hsigned & Hcalls & Hthen)].
  - left. now split.
  - right. repeat split; try assumption. exists (idx, u).
    split; [constructor | exact Hsigned].
  - destruct (IH (from_url_body stream_map js_url (idx, u) w).2)
      as [[Hcalls' Hjs'] | (Hfalsy' & Hcalls' & item & Hitem & Hsigned')].
    + left. split; congruence.
    + right. split; [congruence|]. split; [congruence|].
      exists item. split; [now constructor | exact Hsigned'].
  - destruct Hthen as [Hraise | Hcached]; [congruence|].
    destruct (IH (from_url_body stream_map js_url (idx, u) w).2)
      as [[Hcalls' Hjs'] | (Hfalsy' & _)]; [|congruence].
    right. split; [assumption|]. split; [congruence|].
    exists (idx, u). split; [constructor | exact Hsigned].
Qed.

Lemma elem_of_enumerate {A : Type} (l : list A) (item : nat * A) :
  item ∈ enumerate l -> item.2 ∈ l.
Proof.
  unfold enumerate. intros Hitem.
  apply elem_of_lookup_imap in Hitem as (i & x & -> & Hx).
  cbn [snd]. apply list_elem_of_lookup. eauto.
Qed.

(** The calls of one [from_url], and what becomes of the cached
    script. *)
Lemma from_url_calls (u : string) (w : World) :
  exists extra : list call,
    calls (from_url u w).2 = calls w ++ extra /\
    ((extra = [Urlopen u] /\ is_raise (from_url u w).1 = true /\
      _js_code (self (from_url u w).2) = _js_code (self w))
     \/
     (exists text : string,
         extra = [Urlopen u; JsonLoads text] /\
         _js_code (self (from_url u w).2) = _js_code (self w))
     \/
     (exists text js_url : string,
         extra = [Urlopen u; JsonLoads text; Urlopen js_url] /\
         truthy (_js_code (self w)) = false)).
Proof.
  rewrite from_url_eq.
  destruct (get_video_data_cases u (prepared u w) eq_refl) as [Hself Hcalls].
  destruct (get_video_data (prepared u w))
    as [[[json_object stream_map]|e] w1]; cbn [fst snd is_raise] in *.
  - destruct Hcalls as [[Hraise _] | [text Hcalls]]; [discriminate|].
    cbn [calls prepared] in Hcalls.
    assert (Hjs : _js_code (self w1) = _js_code (self w))
      by now rewrite Hself.
    cbv zeta.
    destruct (cfg_js json_object) as [js|];
      [|exists [Urlopen u; JsonLoads text]; split; [exact Hcalls|];
        right; left; exists text; now split].
    destruct (stream_map !! "url") as [video_urls|];
      [|exists [Urlopen u; JsonLoads text]; split; [exact Hcalls|];
        right; left; exists text; now split].
    match goal with
    | |- context [for_each ?b ?items ?w2] =>
        destruct (from_url_loop_calls stream_map ("http:" +:+ js) items w2)
          as [[Hloop Hkeep] | (Hfalsy & Hloop & _)]
    end; cbn [self calls _js_code set_title] in *.
    + exists [Urlopen u; JsonLoads text]. split; [congruence|].
      right. left. exists text. split; [reflexivity | congruence].
    + exists [Urlopen u; JsonLoads text; Urlopen ("http:" +:+ js)].
      split; [rewrite Hloop, Hcalls; now rewrite <- app_assoc|].
      right. right. exists text, ("http:" +:+ js)%string.
      split; [reflexivity | congruence].
  - assert (Hjs : _js_code (self w1) = _js_code (self w))
      by now rewrite Hself.
    destruct Hcalls as [[_ Hcalls] | [text Hcalls]];
      cbn [calls prepared] in Hcalls.
    + exists [Urlopen u]. split; [exact Hcalls|]. left. now repeat split.
    + exists [Urlopen u; JsonLoads text]. split; [exact Hcalls|].
      right. left. exists text. now split.
Qed.

(** X17: the calls of one [from_url]: the fetch of the page, then at
    most one call of [json.loads], then at most one fetch of the
    script, in this order and nothing else.  A call that returns has
    got as far as [json.loads]. *)
Theorem from_url_call_budget (u : string) (w : World) :
  exists extra : list call,
    calls (from_url u w).2 = calls w ++ extra /\
    ((extra = [Urlopen u] /\ is_raise (from_url u w).1 = true)
     \/ (exists text : string, extra = [Urlopen u; JsonLoads text])
     \/ (exists text js_url : string,
            extra = [Urlopen u; JsonLoads text; Urlopen js_url])).
Proof.
  destruct (from_url_calls u w)
    as (extra & Hcalls & [(-> & Hraise & _) | [(text & -> & _)
       | (text & js_url & -> & _)]]);
    eexists; (split; [exact Hcalls|]); eauto.
Qed.

(** X18: a session that holds a non-empty script keeps it through
    [from_url] and fetches no script, whatever script the page
    resolved names: the calls are the fetch of the page and at most
    one call of [json.loads]. *)
Theorem from_url_keeps_cached_script (u : string) (w : World) :
  truthy (_js_code (self w)) = true ->
  _js_code (self (from_url u w).2) = _js_code (self w) /\
  (calls (from_url u w).2 = calls w ++ [Urlopen u]
   \/ exists text : string,
        calls (from_url u w).2 = calls w ++ [Urlopen u; JsonLoads text]).
Proof.
  intros Hcached.
  destruct (from_url_calls u w)
    as (extra & Hcalls & [(-> & _ & Hjs) | [(text & -> & Hjs)
       | (text & js_url & _ & Hfalsy)]]).
  - split; [exact Hjs | now left].
  - split; [exact Hjs | right; now exists text].
  - congruence.
Qed.

(** X19: the script is fetched only for a candidate without a
    signature.  When every url of the decoded stream map has the text
    [signature=] in it, [from_url] makes no call after the page stage
    and leaves the cached script as it was. *)
Theorem from_url_signed_candidates (u : string) (w w1 : World)
  (json_object : Config) (stream_map : gmap string (list string))
  (video_urls : list string) :
  get_video_data (prepared u w) = (Returns (json_object, stream_map), w1) ->
  stream_map !! "url" = Some video_urls ->
  (forall x : string, x ∈ video_urls -> Text.contains "signature=" x = true) ->
  calls (from_url u w).2 = calls w1 /\
  _js_code (self (from_url u w).2) = _js_code (self w).
Proof.
  intros Hdata Hurls Hsigned.
  destruct (get_video_data_cases u (prepared u w) eq_refl) as [Hself _].
  rewrite from_url_eq, Hdata in *. cbn [snd] in Hself. cbv zeta.
  assert (Hjs : _js_code (self w1) = _js_code (self w)) by now rewrite Hself.
  destruct (cfg_js json_object) as [js|]; [|now split].
  rewrite Hurls.
  match goal with
  | |- context [for_each ?b ?items ?w2] =>
      destruct (from_url_loop_calls stream_map ("http:" +:+ js) items w2)
        as [[Hloop Hkeep] | (_ & _ & item & Hitem & Hunsigned)]
  end.
  - cbn [self calls _js_code set_title] in *. split; congruence.
  - apply elem_of_enumerate, Hsigned in Hitem. congruence.
Qed.

End CallsMore.

Section VideosMore.

Context {collab : Collaborators}.

(** [list.sort] rearranges the list it is given. *)
Hypothesis video_sort_permutation :
  forall l : list Video, Permutation (video_sort l) l.

(** A cipher resolution touches the cached script and the calls only. *)
Lemma get_cipher_frame (signature js_url : string) (w : World) :
  _videos (self (_get_cipher signature js_url w).2) = _videos (self w) /\
  title (self (_get_cipher signature js_url w).2) = title (self w) /\
  _filename (self (_get_cipher signature js_url w).2) = _filename (self w).
Proof.
  destruct (get_cipher_cases signature js_url w)
    as [[_ ->] | [(_ & _ & ->) | (_ & text & -> & _)]]; now repeat split.
Qed.

Lemma added_videos (u fn : string) (kw : kwargs) (w : World) :
  Permutation (_videos (self (added u fn kw w)))
    (_videos (self w) ++ [Video_new u fn kw]).
Proof. unfold added. cbn [self _videos set__videos]. apply video_sort_permutation. Qed.

(** What the loop keeps true of the session: its title has been
    assigned [t], the [filename] property evaluates to the name made
    from [t], and every video is one of [old] or has that name and all
    seven attributes. *)
Lemma loop_invariant_added (t : option string) (old : list Video)
  (u fn : string) (kw : kwargs) (w : World) :
  has_all_attributes (Video_new u fn kw) ->
  title (self w) = Assigned t ->
  current_filename (self w) = Returns fn ->
  current_filename (self w) = Returns (safe_filename t) ->
  (forall v, v ∈ _videos (self w) ->
             v ∈ old \/ filename v = safe_filename t /\ has_all_attributes v) ->
  title (self (added u fn kw w)) = Assigned t /\
  current_filename (self (added u fn kw w)) = Returns (safe_filename t) /\
  (forall v, v ∈ _videos (self (added u fn kw w)) ->
             v ∈ old \/ filename v = safe_filename t /\ has_all_attributes v).
Proof.
  intros Hattrs Htitle Hfn Hname Hvideos.
  assert (fn = safe_filename t) as -> by congruence.
  split; [exact Htitle|]. split.
  - unfold added, current_filename.
    cbn [self _filename title set__videos set__filename truthy default].
    rewrite Htitle.
    now destruct (negb (String.eqb (safe_filename t) "")).
  - intros v Hv. rewrite (added_videos u (safe_filename t) kw w) in Hv.
    apply elem_of_app in Hv as [Hv | Hv]; [now apply Hvideos|].
    apply list_elem_of_singleton in Hv. subst v. right.
    split; [reflexivity | exact Hattrs].
Qed.

Lemma loop_invariant_body (t : option string) (old : list Video)
  (stream_map : gmap string (list string)) (js_url : string) (idx : nat)
  (u : string) (w : World) :
  title (self w) = Assigned t ->
  current_filename (self w) = Returns (safe_filename t) ->
  (forall v, v ∈ _videos (self w) ->
             v ∈ old \/ filename v = safe_filename t /\ has_all_attributes v) ->
  title (self (from_url_body stream_map js_url (idx, u) w).2) = Assigned t /\
  current_filename (self (from_url_body stream_map js_url (idx, u) w).2)
  = Returns (safe_filename t) /\
  (forall v,
      v ∈ _videos (self (from_url_body stream_map js_url (idx, u) w).2) ->
      v ∈ old \/ filename v = safe_filename t /\ has_all_attributes v).
Proof.
  intros Htitle Hname Hvideos.
  assert (Hcipher : forall s,
             title (self (_get_cipher s js_url w).2) = Assigned t /\
             current_filename (self (_get_cipher s js_url w).2)
             = Returns (safe_filename t) /\
             (forall v, v ∈ _videos (self (_get_cipher s js_url w).2) ->
                        v ∈ old \/
                        filename v = safe_filename t /\ has_all_attributes v)).
  { intros s. destruct (get_cipher_frame s js_url w) as (Hv & Ht & Hf).
    unfold current_filename in *. rewrite Hv, Ht, Hf. now repeat split. }
  destruct (from_url_body_cases stream_map js_url idx u w)
    as [[_ ->] | [(_ & _ & ->) | [(_ & _ & s & _ & ->)
       | (_ & kw & u' & fn & w1 & -> & Hfn & Hattrs & Hw1)]]];
    try (now repeat split); [apply Hcipher|].
  cbn [snd]. destruct Hw1 as [-> | (_ & s & -> & _)].
  - now apply loop_invariant_added.
  - destruct (Hcipher s) as (Ht & Hn & Hv). now apply loop_invariant_added.
Qed.

Lemma loop_invariant (t : option string) (old : list Video)
  (stream_map : gmap string (list string)) (js_url : string)
  (items : list (nat * string)) :
  forall w : World,
    title (self w) = Assigned t ->
    current_filename (self w) = Returns (safe_filename t) ->
    (forall v, v ∈ _videos (self w) ->
               v ∈ old \/ filename v = safe_filename t /\ has_all_attributes v) ->
    title (self (for_each (from_url_body stream_map js_url) items w).2)
    = Assigned t /\
    (forall v,
        v ∈ _videos (self (for_each (from_url_body stream_map js_url) items w).2) ->
        v ∈ old \/ filename v = safe_filename t /\ has_all_attributes v).
Proof.
  induction items as [|[idx u] items IH]; intros w Htitle Hname Hvideos;
    [now split|].
  destruct (loop_invariant_body t old stream_map js_url idx u w
              Htitle Hname Hvideos) as (Ht & Hn & Hv).
  destruct (for_each_step (from_url_body stream_map js_url) (idx, u) items w)
    as [[_ ->] | [_ ->]]; [now split | now apply IH].
Qed.

(** X20: the videos a [from_url] call adds.  Each video of the
    collection after the call is a video that was there before, or has
    the filename made from the title of the page resolved, which the
    call has assigned, not a filename set before the call, and has all
    seven quality attributes. *)
Theorem from_url_new_videos (u : string) (w : World) (v : Video) :
  v ∈ get_videos (self (from_url u w).2) ->
  v ∈ get_videos (self w)
  \/ exists t : option string,
       title (self (from_url u w).2) = Assigned t /\
       filename v = safe_filename t /\ has_all_attributes v.
Proof.
  unfold get_videos. rewrite from_url_eq.
  destruct (get_video_data_cases u (prepared u w) eq_refl) as [Hself _].
  assert (Hsame : _videos (set_title None (self (prepared u w)))
                  = _videos (self w)) by reflexivity.
  destruct (get_video_data (prepared u w))
    as [[[json_object stream_map]|e] w1]; cbn [snd] in *;
    [|rewrite Hself, Hsame; now left].
  cbv zeta.
  destruct (cfg_js json_object) as [js|];
    [|cbn [snd self _videos set_title]; rewrite Hself, Hsame; now left].
  destruct (stream_map !! "url") as [video_urls|];
    [|cbn [snd self _videos set_title]; rewrite Hself, Hsame; now left].
  match goal with
  | |- context [for_each ?b ?items ?w2] =>
      destruct (loop_invariant (cfg_title json_object) (_videos (self w))
                  stream_map ("http:" +:+ js) items w2) as [Htitle Hvideos]
  end.
  - reflexivity.
  - cbn [self]. unfold current_filename. rewrite Hself. reflexivity.
  - cbn [self _videos set_title]. rewrite Hself, Hsame. now left.
  - intros Hv. destruct (Hvideos v Hv) as [Hold | Hnew]; [now left|].
    right. now exists (cfg_title json_object).
Qed.

Lemma enumerate_classified {A : Type} (p : A -> bool) (l : list A) :
  forall f : nat -> nat,
    length (List.filter (fun item : nat * A => p item.2)
              (imap (fun i x => (f i, x)) l))
    = length (List.filter p l).
Proof.
  induction l as [|x l IH]; intros f; [reflexivity|].
  cbn [imap List.filter snd].
  specialize (IH (f ∘ S)). unfold compose in IH.
  destruct (p x); cbn [length]; now rewrite <- IH.
Qed.

Lemma loop_adds_classified (stream_map : gmap string (list string))
  (js_url : string) (items : list (nat * string)) :
  forall w : World,
    (for_each (from_url_body stream_map js_url) items w).1 = Returns tt ->
    length (_videos (self (for_each (from_url_body stream_map js_url) items w).2))
    = length (_videos (self w))
      + length (List.filter (fun item : nat * string => classified item.2) items).
Proof.
  induction items as [|[idx u] items IH]; intros w Hreturns;
    [cbn; lia|].
  destruct (for_each_step (from_url_body stream_map js_url) (idx, u) items w)
    as [[Hraise Heq] | [Hok Heq]]; rewrite Heq in *.
  - destruct (from_url_body stream_map js_url (idx, u) w).1; discriminate.
  - rewrite (IH _ Hreturns). cbn [List.filter snd].
    destruct (from_url_body_cases stream_map js_url idx u w)
      as [[-> ->] | [(_ & Hraise & _) | [(_ & _ & s & Hraise & _)
         | (-> & kw & u' & fn & w1 & Hbody & _ & _ & Hw1)]]];
      try congruence; try lia.
    rewrite Hbody. cbn [snd length].
    rewrite (Permutation_length (added_videos u' fn kw w1)), length_app.
    cbn [length].
    destruct Hw1 as [-> | (_ & s & -> & _)]; [lia|].
    destruct (get_cipher_frame s js_url w) as (-> & _ & _). lia.
Qed.

(** X21: a [from_url] call that returns has added one video for each
    url of the decoded stream map that is classified (a single itag,
    known to the table), and none for the others. *)
Theorem from_url_adds_classified (u : string) (w w1 : World)
  (json_object : Config) (stream_map : gmap string (list string))
  (video_urls : list string) :
  get_video_data (prepared u w) = (Returns (json_object, stream_map), w1) ->
  stream_map !! "url" = Some video_urls ->
  (from_url u w).1 = Returns tt ->
  length (get_videos (self (from_url u w).2))
  = length (get_videos (self w)) + length (List.filter classified video_urls).
Proof.
  intros Hdata Hurls. unfold get_videos.
  destruct (get_video_data_cases u (prepared u w) eq_refl) as [Hself _].
  rewrite from_url_eq, Hdata in *. cbn [snd] in Hself. cbv zeta.
  destruct (cfg_js json_object) as [js|]; [|discriminate].
  rewrite Hurls. intros Hreturns.
  rewrite (loop_adds_classified _ _ _ _ Hreturns).
  cbn [self _videos set_title]. rewrite Hself. cbn [_videos set_title prepared self set__filename set__video_url].
  f_equal. apply (enumerate_classified classified video_urls (fun i => i)).
Qed.

End VideosMore.

(** ** The further properties on concrete inputs *)

Ltac same_braces_by_scan :=
  repeat first
    [ apply same_braces_empty
    | apply same_braces_brace; [reflexivity|]
    | apply same_braces_other; [reflexivity | reflexivity |] ].

Lemma json_offset_skips_leading_text_witness :
  _get_json_offset "var x = {a{b}c};" = Returns 15.
Proof.
  apply (proj1 (json_offset_skips_leading_text "var x = " "a{b}c" ";"
                  eq_refl
                  (balanced_char "a" _ ltac:(discriminate) ltac:(discriminate)
                     (balanced_nest "b" "c"
                        (balanced_char "b" _ ltac:(discriminate)
                           ltac:(discriminate) balanced_empty)
                        (balanced_char "c" _ ltac:(discriminate)
                           ltac:(discriminate) balanced_empty))))).
Defined.

Lemma json_offset_pop_error_witness :
  _get_json_offset "ab}c{" = Raises IndexError.
Proof.
  apply (proj2 (json_offset_pop_error "ab}c{")).
  exists "ab", "c{". split; reflexivity.
Defined.

Lemma json_offset_bounds_witness :
  2 <= 4 <= String.length "{{}}x" /\
  String.get (4 - 1) "{{}}x" = Some "}"%char /\
  count_char "{" (Text.take 4 "{{}}x") = count_char "}" (Text.take 4 "{{}}x").
Proof. apply (json_offset_bounds "{{}}x" 4). reflexivity. Defined.

(** A closing brace inside a quoted string ends the object like any
    other. *)
Lemma json_offset_depends_on_braces_only_witness :
  _get_json_offset "{'a': '}', 'b': 1}" = _get_json_offset "{______}_________}".
Proof.
  apply json_offset_depends_on_braces_only. same_braces_by_scan.
Defined.

(** The toy [json.loads] of [Demo] rejects the text [{}]. *)
Lemma get_json_data_after_marker_witness :
  @_get_json_data Demo.collaborators "<script>ytplayer.config = {};</script>"
    Demo.world0
  = (Raises ValueError, {| self := YouTube_init; calls := [JsonLoads "{}"] |}).
Proof.
  apply (@get_json_data_after_marker Demo.collaborators "<script>" "" ";</script>"
           Demo.world0); [reflexivity | apply balanced_empty].
Defined.

Lemma no_occurrence_by_scan (p s : string) :
  Text.contains p s = false ->
  forall a b : string, s <> (a +:+ p +:+ b)%string.
Proof. intros Hscan a b ->. now rewrite contains_app in Hscan. Qed.

Lemma get_json_data_without_marker_witness :
  @_get_json_data Demo.collaborators "<html><body><div>x = {};</div></body>"
    Demo.world0
  = (Raises ValueError,
     {| self := YouTube_init; calls := [JsonLoads "x = {}"] |}).
Proof.
  apply (@get_json_data_without_marker Demo.collaborators
           "<html><body><div>" "x = " "" ";</div></body>" Demo.world0);
    [apply no_occurrence_by_scan; reflexivity | reflexivity | reflexivity
    | apply balanced_empty].
Defined.

Lemma no_itag_found_iff_witness :
  ~ has_itag_token "http://v/none?signature=Z".
Proof.
  apply (proj1 (no_itag_found_iff "http://v/none?signature=Z")).
  reflexivity.
Defined.

Lemma multiple_itags_found_witness :
  _get_quality_profile_from_url "http://v/x?itag=18&myitag=22"
  = Raises (PytubeError MultipleItagsFound).
Proof.
  apply (multiple_itags_found "http://v/x?" "8&my" "2" "1" "2");
    reflexivity.
Defined.

Lemma classified_video_attributes_witness :
  exists e r vc p vb ac ab : string,
    YT_QUALITY_PROFILES !! 22%Z = Some [e; r; vc; p; vb; ac; ab] /\
    combine YT_QUALITY_PROFILE_KEYS
      ["mp4"; "720p"; "H.264"; "High"; "2-2.9"; "AAC"; "192"]
    = combine YT_QUALITY_PROFILE_KEYS [e; r; vc; p; vb; ac; ab] /\
    forall u fn : string,
      Video_new u fn
        (combine YT_QUALITY_PROFILE_KEYS
           ["mp4"; "720p"; "H.264"; "High"; "2-2.9"; "AAC"; "192"])
      = mkVideo u fn (Some e) (Some r) (Some vc) (Some p) (Some vb) (Some ac)
          (Some ab).
Proof.
  apply (classified_video_attributes "http://v/hd?itag=22"). reflexivity.
Defined.

Lemma filename_property_witness :
  (@get_filename Demo.collaborators
     (@set_filename "mine" Demo.world1).2).1
  = Returns "mine".
Proof.
  apply (proj1 (proj2 (@filename_property Demo.collaborators Demo.world1))).
  discriminate.
Defined.

Lemma cipher_without_entry_point_witness :
  @_get_cipher Demo.collaborators "abc" "http://yt/changed.js" Demo.world0
  = (Raises CipherError,
     {| self := set__js_code (Some "var f=function(g){g.sig2(g.s)}")
                  YouTube_init;
        calls := [Urlopen "http://yt/changed.js"] |}).
Proof.
  apply (proj1 (@cipher_without_entry_point Demo.collaborators
                  "var f=function(g){g.sig2(g.s)}"
                  ltac:(apply no_occurrence_by_scan; reflexivity)
                  "abc" "http://yt/changed.js" Demo.world0));
    reflexivity.
Defined.

(** The session of [Demo.world1] holds [player.js]; resolving the page
    that names [changed.js] leaves it in place. *)
Lemma from_url_keeps_cached_script_witness :
  _js_code
    (self (@from_url Demo.collaborators Demo.watch_bad_cipher Demo.world1).2)
  = _js_code (self Demo.world1).
Proof.
  apply (proj1 (@from_url_keeps_cached_script Demo.collaborators
                  Demo.watch_bad_cipher Demo.world1
                  ltac:(vm_compute; reflexivity))).
Defined.

(** The page of [Demo2], whose two candidates carry a signature. *)
Lemma from_url_signed_candidates_witness :
  calls (@from_url Demo2.collaborators Demo2.watch_signed Demo.world0).2
  = calls (@get_video_data Demo2.collaborators
             (prepared Demo2.watch_signed Demo.world0)).2 /\
  _js_code (self (@from_url Demo2.collaborators Demo2.watch_signed Demo.world0).2)
  = _js_code (self Demo.world0).
Proof.
  apply (@from_url_signed_candidates Demo2.collaborators Demo2.watch_signed
           Demo.world0 _ Demo2.cfg_signed
           (match (@get_video_data Demo2.collaborators
                     (prepared Demo2.watch_signed Demo.world0)).1 with
            | Returns (_, stream_map) => stream_map
            | Raises _ => ∅
            end)
           ["http://v/sd?itag=18&signature=XY"; "http://v/xx?itag=999&signature=Q"]).
  - vm_compute. reflexivity.
  - vm_compute. reflexivity.
  - intros x Hx.
    repeat (apply elem_of_cons in Hx as [->|Hx]; [reflexivity|]).
    now apply elem_of_nil in Hx.
Defined.

(** The 360p video that the first resolution of [Demo.watch_ok] adds. *)
Lemma from_url_new_videos_witness :
  let v := Video_new "http://v/sd?itag=18&signature=XY" "Clip"
             (combine YT_QUALITY_PROFILE_KEYS
                ["mp4"; "360p"; "H.264"; "Baseline"; "0.5"; "AAC"; "96"]) in
  v ∈ get_videos (self Demo.world0)
  \/ exists t : option string,
       title (self (@from_url Demo.collaborators Demo.watch_ok Demo.world0).2)
       = Assigned t /\
       filename v = safe_filename (Collaborators := Demo.collaborators) t /\
       has_all_attributes v.
Proof.
  intros v.
  apply (@from_url_new_videos Demo.collaborators demo_video_sort_permutation
           Demo.watch_ok Demo.world0 v).
  assert (Hvideos :
    get_videos (self (@from_url Demo.collaborators Demo.watch_ok Demo.world0).2)
    = [v; Video_new "http://v/hd?itag=22&signature=cba" "Clip"
            (combine YT_QUALITY_PROFILE_KEYS
               ["mp4"; "720p"; "H.264"; "High"; "2-2.9"; "AAC"; "192"])])
    by (vm_compute; reflexivity).
  rewrite Hvideos. constructor.
Defined.

(** The three candidates of [Demo.watch_ok], two of them classified. *)
Lemma from_url_adds_classified_witness :
  length (get_videos
            (self (@from_url Demo.collaborators Demo.watch_ok Demo.world0).2))
  = length (get_videos (self Demo.world0))
    + length (List.filter classified
                ["http://v/hd?itag=22"; "http://v/sd?itag=18&signature=XY";
                 "http://v/xx?itag=999&signature=Q"]).
Proof.
  apply (@from_url_adds_classified Demo.collaborators
           demo_video_sort_permutation Demo.watch_ok Demo.world0
           (@get_video_data Demo.collaborators
              (prepared Demo.watch_ok Demo.world0)).2
           Demo.cfg_ok
           (match (@get_video_data Demo.collaborators
                     (prepared Demo.watch_ok Demo.world0)).1 with
            | Returns (_, stream_map) => stream_map
            | Raises _ => ∅
            end));
    vm_compute; reflexivity.
Defined.

(** ** The session after [from_url] *)

Section SessionMore.

Context {collab : Collaborators}.

Lemma get_cipher_url (signature js_url : string) (w : World) :
  _video_url (self (_get_cipher signature js_url w).2) = _video_url (self w).
Proof.
  destruct (get_cipher_cases signature js_url w)
    as [[_ ->] | [(_ & _ & ->) | (_ & text & -> & _)]]; reflexivity.
Qed.

Lemma from_url_body_url (stream_map : gmap string (list string))
  (js_url : string) (idx : nat) (u : string) (w : World) :
  _video_url (self (from_url_body stream_map js_url (idx, u) w).2)
  = _video_url (self w).
Proof.
  destruct (from_url_body_cases stream_map js_url idx u w)
    as [[_ ->] | [(_ & _ & ->) | [(_ & _ & s & _ & ->)
       | (_ & kw & u' & fn & w1 & -> & _ & _ & Hw1)]]];
    try reflexivity; [apply get_cipher_url|].
  cbn [snd]. destruct Hw1 as [-> | (_ & s & -> & _)];
    [reflexivity | apply get_cipher_url].
Qed.

Lemma from_url_loop_url (stream_map : gmap string (list string))
  (js_url : string) (items : list (nat * string)) :
  forall w : World,
    _video_url (self (for_each (from_url_body stream_map js_url) items w).2)
    = _video_url (self w).
Proof.
  induction items as [|[idx u] items IH]; intros w; [reflexivity|].
  destruct (for_each_step (from_url_body stream_map js_url) (idx, u) items w)
    as [[_ ->] | [_ ->]]; [|rewrite IH]; apply from_url_body_url.
Qed.

(** X22: the session after [from_url].  Whatever the outcome, the url
    of the session is the one passed.  When the page stage fails
    (fetch, age restriction, config extraction, stream-map decoding),
    [from_url] raises that exception and the session has its videos
    and its cached script as before, its filename cleared and its title
    assigned [None]. *)
Theorem from_url_session (u : string) (w : World) :
  _video_url (self (from_url u w).2) = Some u /\
  (forall e : exn,
      (get_video_data (prepared u w)).1 = Raises e ->
      (from_url u w).1 = Raises e /\
      self (from_url u w).2
      = {| _filename := None; _video_url := Some u;
           _js_code := _js_code (self w); _videos := _videos (self w);
           title := Assigned None |}).
Proof.
  rewrite from_url_eq.
  destruct (get_video_data_cases u (prepared u w) eq_refl) as [Hself _].
  destruct (get_video_data (prepared u w))
    as [[[json_object stream_map]|e] w1]; cbn [fst snd] in *.
  - split; [|discriminate]. cbv zeta.
    destruct (cfg_js json_object) as [js|];
      [|cbn [snd self]; now rewrite Hself].
    destruct (stream_map !! "url") as [video_urls|];
      [|cbn [snd self]; now rewrite Hself].
    rewrite from_url_loop_url. cbn [self]. now rewrite Hself.
  - split; [now rewrite Hself|]. intros e' [= <-].
    split; [reflexivity | now rewrite Hself].
Qed.

End SessionMore.

(** An address that cannot be opened, in a session with two videos. *)
Lemma from_url_session_witness :
  (@from_url Demo.collaborators "http://nowhere" Demo.world1).1
  = Raises (PytubeError UnableToOpenUrl) /\
  self (@from_url Demo.collaborators "http://nowhere" Demo.world1).2
  = {| _filename := None; _video_url := Some "http://nowhere";
       _js_code := _js_code (self Demo.world1);
       _videos := _videos (self Demo.world1); title := Assigned None |}.
Proof.
  apply (proj2 (@from_url_session Demo.collaborators "http://nowhere"
                  Demo.world1)).
  vm_compute. reflexivity.
Defined.

(** ** The cipher script within one page resolution *)

Section ScriptCache.

Context {collab : Collaborators}.

Lemma for_each_app {A : Type} (body : A -> M unit) (l1 l2 : list A) :
  forall w : World,
    for_each body (l1 ++ l2) w
    = if is_raise (for_each body l1 w).1 then for_each body l1 w
      else for_each body l2 (for_each body l1 w).2.
Proof.
  induction l1 as [|x l1 IH]; intros w; [reflexivity|].
  cbn [app]. rewrite !for_each_cons.
  destruct (body x w) as [[[]|e] w1]; [apply IH | reflexivity].
Qed.

(** A resolution that fetches the script and returns has stored the
    text fetched, which has an entry point and so is not empty. *)
Lemma get_cipher_first_fetch (signature js_url : string) (w : World) :
  truthy (_js_code (self w)) = false ->
  is_raise (_get_cipher signature js_url w).1 = false ->
  exists text : string,
    text <> "" /\ urlopen js_url = Some text /\
    (_get_cipher signature js_url w).2
    = {| self := set__js_code (Some text) (self w);
         calls := calls w ++ [Urlopen js_url] |}.
Proof.
  intros Hfalsy Hok.
  destruct (urlopen js_url) as [text|] eqn:Hopen.
  - rewrite (get_cipher_fetches _ _ _ _ Hfalsy Hopen) in *. cbn [fst snd] in *.
    exists text. split; [|now split].
    intros ->. discriminate Hok.
  - unfold _get_cipher, bind, get_self, log_call in Hok. rewrite Hfalsy in Hok.
    cbn [negb self calls] in Hok. rewrite Hopen in Hok. discriminate Hok.
Qed.

(** One pass of the loop that returns has made no call and kept the
    script, or has fetched the script and stored its text. *)
Lemma from_url_body_fetch (stream_map : gmap string (list string))
  (js_url : string) (idx : nat) (u : string) (w : World) :
  is_raise (from_url_body stream_map js_url (idx, u) w).1 = false ->
  (calls (from_url_body stream_map js_url (idx, u) w).2 = calls w /\
   _js_code (self (from_url_body stream_map js_url (idx, u) w).2)
   = _js_code (self w))
  \/
  (exists text : string,
      text <> "" /\ urlopen js_url = Some text /\
      _js_code (self (from_url_body stream_map js_url (idx, u) w).2)
      = Some text /\
      calls (from_url_body stream_map js_url (idx, u) w).2
      = calls w ++ [Urlopen js_url]).
Proof.
  destruct (from_url_body_cases stream_map js_url idx u w)
    as [[_ ->] | [(_ & Hraise & _) | [(_ & _ & s & Hraise & _)
       | (_ & kw & u' & fn & w1 & -> & _ & _ & Hw1)]]];
    try congruence; [left; now split|].
  intros _. cbn [snd]. destruct Hw1 as [-> | (_ & s & -> & Hok)];
    [left; now split|].
  destruct (truthy (_js_code (self w))) eqn:Hcached.
  - destruct (get_cipher_cases s js_url w)
      as [[_ ->] | [(Hfalsy & _) | (Hfalsy & _)]]; try congruence.
    left. now split.
  - destruct (get_cipher_first_fetch s js_url w Hcached Hok)
      as (text & Hne & Hopen & ->).
    right. exists text. now repeat split.
Qed.

(** With a script cached the loop makes no call and keeps the script. *)
Lemma from_url_loop_cached (stream_map : gmap string (list string))
  (js_url : string) (items : list (nat * string)) (w : World)
  (text : string) :
  _js_code (self w) = Some text ->
  text <> "" ->
  calls (for_each (from_url_body stream_map js_url) items w).2 = calls w /\
  _js_code (self (for_each (from_url_body stream_map js_url) items w).2)
  = Some text.
Proof.
  intros Hcode Hne.
  destruct (from_url_loop_calls stream_map js_url items w)
    as [[Hcalls Hjs] | (Hfalsy & _)].
  - split; congruence.
  - rewrite Hcode, (truthy_nonempty _ Hne) in Hfalsy. discriminate Hfalsy.
Qed.

(** Passes of the loop that have returned and made a call have fetched
    the script, once, and stored its text. *)
Lemma from_url_loop_fetch (stream_map : gmap string (list string))
  (js_url : string) (items : list (nat * string)) :
  forall w : World,
    is_raise (for_each (from_url_body stream_map js_url) items w).1 = false ->
    calls (for_each (from_url_body stream_map js_url) items w).2 <> calls w ->
    exists text : string,
      text <> "" /\ urlopen js_url = Some text /\
      _js_code (self (for_each (from_url_body stream_map js_url) items w).2)
      = Some text /\
      calls (for_each (from_url_body stream_map js_url) items w).2
      = calls w ++ [Urlopen js_url].
Proof.
  induction items as [|[idx u] items IH]; intros w Hok Hcalls;
    [now contradict Hcalls|].
  destruct (for_each_step (from_url_body stream_map js_url) (idx, u) items w)
    as [[Hraise Heq] | [Hbody Heq]]; rewrite Heq in *; [congruence|].
  destruct (from_url_body_fetch stream_map js_url idx u w Hbody)
    as [[Hsame Hjs] | (text & Hne & Hopen & Hcode & Hfetched)].
  - rewrite <- Hsame in Hcalls.
    destruct (IH _ Hok Hcalls) as (text & Hne & Hopen & Hcode & Hfetched).
    exists text. repeat split; try assumption. congruence.
  - destruct (from_url_loop_cached stream_map js_url items _ text Hcode Hne)
      as [Hsame Hkept].
    exists text. repeat split; try assumption. congruence.
Qed.

(** C9: within one page resolution the cipher script is fetched at most
    once and cached.  The cipher resolutions of a page resolution
    ([from_url]) are those of its loop over the candidates, which ends
    at the first pass that raises.  After the page stage [from_url]
    makes no call or one fetch of the script, and so does the loop from
    any state.  Once passes of the loop have fetched the script, its
    text is the cached one; every cipher resolution from there is the
    transform of the cached text, makes no call and changes nothing;
    and whatever candidates follow, the script fetched stays cached
    and the fetch remains the only call of the loop. *)
Theorem cipher_script_fetched_once :
  (forall (u : string) (w : World),
      calls (from_url u w).2 = calls (get_video_data (prepared u w)).2
      \/ exists js_url : string,
           calls (from_url u w).2
           = calls (get_video_data (prepared u w)).2 ++ [Urlopen js_url]) /\
  (forall (stream_map : gmap string (list string)) (js_url : string)
          (items : list (nat * string)) (w : World),
      calls (for_each (from_url_body stream_map js_url) items w).2 = calls w
      \/ calls (for_each (from_url_body stream_map js_url) items w).2
         = calls w ++ [Urlopen js_url]) /\
  (forall (stream_map : gmap string (list string)) (js_url : string)
          (done rest : list (nat * string)) (w : World),
      is_raise (for_each (from_url_body stream_map js_url) done w).1 = true ->
      for_each (from_url_body stream_map js_url) (done ++ rest) w
      = for_each (from_url_body stream_map js_url) done w) /\
  (forall (stream_map : gmap string (list string)) (js_url : string)
          (done rest : list (nat * string)) (w : World),
      is_raise (for_each (from_url_body stream_map js_url) done w).1 = false ->
      calls (for_each (from_url_body stream_map js_url) done w).2 <> calls w ->
      exists text : string,
        urlopen js_url = Some text /\
        calls (for_each (from_url_body stream_map js_url) done w).2
        = calls w ++ [Urlopen js_url] /\
        _js_code (self (for_each (from_url_body stream_map js_url) done w).2)
        = Some text /\
        (forall signature url : string,
            _get_cipher signature url
              (for_each (from_url_body stream_map js_url) done w).2
            = (cipher_with text signature,
               (for_each (from_url_body stream_map js_url) done w).2)) /\
        _js_code
          (self (for_each (from_url_body stream_map js_url) (done ++ rest) w).2)
        = Some text /\
        calls (for_each (from_url_body stream_map js_url) (done ++ rest) w).2
        = calls w ++ [Urlopen js_url]).
Proof.
  split; [|split; [|split]].
  - intros u w. rewrite from_url_eq.
    destruct (get_video_data (prepared u w))
      as [[[json_object stream_map]|e] w1]; cbn [snd]; [|now left].
    cbv zeta. destruct (cfg_js json_object) as [js|]; [|now left].
    destruct (stream_map !! "url") as [video_urls|]; [|now left].
    match goal with
    | |- context [for_each ?b ?items ?w2] =>
        destruct (from_url_loop_calls stream_map ("http:" +:+ js) items w2)
          as [[Hloop _] | (_ & Hloop & _)]
    end; [left | right; exists ("http:" +:+ js)%string]; exact Hloop.
  - intros stream_map js_url items w.
    destruct (from_url_loop_calls stream_map js_url items w)
      as [[Hloop _] | (_ & Hloop & _)]; [now left | now right].
  - intros stream_map js_url done rest w Hraise.
    now rewrite for_each_app, Hraise.
  - intros stream_map js_url done rest w Hok Hcalls.
    destruct (from_url_loop_fetch stream_map js_url done w Hok Hcalls)
      as (text & Hne & Hopen & Hcode & Hfetched).
    destruct (from_url_loop_cached stream_map js_url rest _ text Hcode Hne)
      as [Hsame Hkept].
    exists text. split; [exact Hopen|]. split; [exact Hfetched|].
    split; [exact Hcode|]. split.
    + intros signature url. now apply get_cipher_cached.
    + rewrite for_each_app, Hok. split; [exact Hkept | congruence].
Qed.

End ScriptCache.

(** Two candidates without a signature, in a session whose title is
    set: the first pass fetches [player.js], the second makes no
    call. *)
Lemma cipher_script_fetched_once_witness :
  let w := {| self := set_title (Some "Clip") YouTube_init; calls := [] |} in
  let body :=
    @from_url_body Demo.collaborators {[ "s" := ["abc"; "xy"] ]}
      "http://yt/player.js" in
  calls (for_each body [(0, "http://v/hd?itag=22"); (1, "http://v/sd?itag=18")] w).2
  = [Urlopen "http://yt/player.js"] /\
  url <$> _videos (self (for_each body [(0, "http://v/hd?itag=22");
                                         (1, "http://v/sd?itag=18")] w).2)
  = ["http://v/sd?itag=18&signature=yx"; "http://v/hd?itag=22&signature=cba"].
Proof.
  intros w body. split; [|vm_compute; reflexivity].
  assert (Hok : is_raise (for_each body [(0, "http://v/hd?itag=22")] w).1 = false)
    by (vm_compute; reflexivity).
  assert (Hcalls : calls (for_each body [(0, "http://v/hd?itag=22")] w).2
                   <> calls w)
    by (vm_compute; discriminate).
  destruct (proj2 (proj2 (proj2 (@cipher_script_fetched_once Demo.collaborators)))
              _ _ _ [(1, "http://v/sd?itag=18")] _ Hok Hcalls)
    as (text & _ & _ & _ & _ & _ & Hloop).
  exact Hloop.
Defined.
